(** * Instantly MCP server: OAuth entry points, server caching, pagination

    A shallow embedding of the TypeScript sources of the Instantly MCP
    adapter and the properties its specification states about them.

    Conventions of the embedding.
    - A JavaScript string is a [string]; its [length] is the number of its
      characters (the tokens and header values handled here are ASCII). A
      text that may hold other characters, such as the description of a
      tool, is kept in UTF-8 and measured in UTF-16 code units.
    - [undefined] is [None]; a value that may be absent is an [option].
    - [console.log] / [console.error] append a [LogEntry] (the list of the
      call's arguments) to an explicit log.
    - A function that may throw returns a [Completion].
    - Module-level [let] variables are fields of an explicit state record. *)

From Stdlib Require Import String Ascii List ZArith Lia Bool Arith PeanoNat.
From Stdlib Require Import DecimalString.
From Equations Require Import Equations.
Import ListNotations.

Local Open Scope string_scope.
Local Open Scope list_scope.

Infix "+++" := String.append (at level 60, right associativity).

(** ** JavaScript values used by the sources *)

Module Js.

(** An [Error] object: the two properties the sources read. *)
Record JsError : Type := mkError { message : string; stack : string }.

(** [new Error(msg)]; the stack text is produced by the engine and starts
    with the message. *)
Definition newError (msg : string) : JsError :=
  {| message := msg; stack := "Error: " +++ msg |}.

(** The result of evaluating a block that may [throw]. *)
Inductive Completion (A : Type) : Type :=
| Returned (a : A)
| Thrown (e : JsError).
Arguments Returned {A} a.
Arguments Thrown {A} e.

(** Truthiness of a string: only the empty string is falsy. *)
Definition truthy (s : string) : bool :=
  match s with
  | EmptyString => false
  | String _ _ => true
  end.

(** Values that [JSON.stringify] serialises. *)
#[local] Set Warnings "-register-all".
Inductive json : Type :=
| JNull
| JBool (b : bool)
| JNum (z : Z)
| JStr (s : string)
| JArr (items : list json)
| JObj (fields : list (string * json)).

Definition dquote : ascii := "034"%char.
Definition newline : ascii := "010"%char.

Definition str1 (c : ascii) : string := String c EmptyString.

Definition hexDigit (n : nat) : ascii :=
  nth n (list_ascii_of_string "0123456789abcdef") "0"%char.

(** QuoteJSONString, one character at a time. *)
Definition escapeChar (c : ascii) : string :=
  let n := nat_of_ascii c in
  if Nat.eqb n 34 then "\" +++ str1 dquote
  else if Nat.eqb n 92 then "\\"
  else if Nat.eqb n 8 then "\b"
  else if Nat.eqb n 12 then "\f"
  else if Nat.eqb n 10 then "\n"
  else if Nat.eqb n 13 then "\r"
  else if Nat.eqb n 9 then "\t"
  else if Nat.ltb n 32 then "\u00" +++ str1 (hexDigit (n / 16)) +++ str1 (hexDigit (n mod 16))
  else str1 c.

Fixpoint escapeString (s : string) : string :=
  match s with
  | EmptyString => EmptyString
  | String c rest => escapeChar c +++ escapeString rest
  end.

Definition quoteJSONString (s : string) : string :=
  str1 dquote +++ escapeString s +++ str1 dquote.

Definition string_of_Z (z : Z) : string := NilEmpty.string_of_int (Z.to_int z).

Fixpoint join (sep : string) (parts : list string) : string :=
  match parts with
  | [] => EmptyString
  | [p] => p
  | p :: rest => p +++ sep +++ join sep rest
  end.

Fixpoint spaces (n : nat) : string :=
  match n with
  | O => EmptyString
  | S k => String " "%char (spaces k)
  end.

(** SerializeJSONArray / SerializeJSONObject: wrap the already serialised
    members; [gap] is the indentation unit and [ind] the indentation of the
    enclosing value. *)
Definition wrapMembers (opn cls gap ind : string) (parts : list string) : string :=
  match parts with
  | [] => opn +++ cls
  | _ =>
      if truthy gap
      then opn +++ str1 newline +++ (ind +++ gap)
               +++ join ("," +++ str1 newline +++ (ind +++ gap)) parts
               +++ str1 newline +++ ind +++ cls
      else opn +++ join "," parts +++ cls
  end.

Fixpoint serialize (gap ind : string) (v : json) : string :=
  match v with
  | JNull => "null"
  | JBool true => "true"
  | JBool false => "false"
  | JNum z => string_of_Z z
  | JStr s => quoteJSONString s
  | JArr items =>
      wrapMembers "[" "]" gap ind (map (serialize gap (ind +++ gap)) items)
  | JObj fields =>
      wrapMembers "{" "}" gap ind
        (map (fun kv =>
                match kv with
                | (k, x) =>
                    quoteJSONString k +++ (if truthy gap then ": " else ":")
                      +++ serialize gap (ind +++ gap) x
                end) fields)
  end.

(** [JSON.stringify(v, null, n)]; [n = 0] is the one-argument call. *)
Definition JSON_stringify (v : json) (n : nat) : string :=
  serialize (spaces n) EmptyString v.

(** Arguments of a console call, and the log they are appended to. *)
Inductive LogArg : Type :=
| AStr (s : string)
| AStrs (l : list string)
| ANum (z : Z)
| AUndefined
| AError (e : JsError).

Inductive LogLevel : Type := ConsoleLog | ConsoleError.

Definition LogEntry : Type := (LogLevel * list LogArg)%type.

Definition console_log (args : list LogArg) : LogEntry := (ConsoleLog, args).
Definition console_error (args : list LogArg) : LogEntry := (ConsoleError, args).

End Js.
Import Js.

(** ** api/mcp-oauth.ts and the app route: token verification and tool calls *)

Module McpAuth.

(** [AuthInfo] of the MCP SDK, with the [extra] record the sources fill. *)
Record AuthExtra : Type := { apiKey : option string }.

Record AuthInfo : Type := {
  token : string;
  scopes : list string;
  clientId : string;
  extra : option AuthExtra
}.

(** The second argument of a tool callback. The callback reads its
    property [auth] ([extra?.auth?.extra?.apiKey]); the server of the MCP
    SDK, which calls the callback, has the property [authInfo] for the
    [AuthInfo] of the request (its [RequestHandlerExtra]). *)
Record HandlerExtra : Type := {
  auth : option AuthInfo;
  authInfo : option AuthInfo
}.

(** The [extra] that the server of the MCP SDK builds for a request which
    [withMcpAuth] has let through with the [AuthInfo] [info]: [withMcpAuth]
    keeps what [verifyToken] returned on the request, the transport passes
    it on, and the server hands it to the callback as [extra.authInfo]; it
    sets no property [auth]. The SDK and the mcp-handler package are not
    among the sources; this is the interface they publish. *)
Definition sdkExtra (info : option AuthInfo) : HandlerExtra :=
  {| auth := None; authInfo := info |}.

(** The standard [Request] object handed to [verifyToken] and [authHandler]. *)
Record WebRequest : Type := {
  reqUrl : string;
  reqMethod : string;
  reqHeaders : list (string * string);
  reqBody : option string
}.

(** [verifyToken(req, bearerToken?)]. The two source files differ only in
    the text of two log messages, which are the parameters [msgShort] and
    [msgOk]. The result is the returned value and the lines written to
    [console.error]. *)
Definition verifyTokenWith (msgShort msgOk : string)
    (req : WebRequest) (bearerToken : option string)
    : option AuthInfo * list LogEntry :=
  match bearerToken with
  | None => (None, [console_error [AStr "[OAuth] No bearer token provided"]])
  | Some tok =>
      if negb (truthy tok)
      then (None, [console_error [AStr "[OAuth] No bearer token provided"]])
      else if Nat.ltb (String.length tok) 10
      then (None, [console_error [AStr msgShort]])
      else (Some {| token := tok;
                    scopes := ["read"; "write"];
                    clientId := "instantly-user";
                    extra := Some {| apiKey := Some tok |} |},
            [console_error [AStr msgOk]])
  end.

(** api/mcp-oauth.ts *)
Definition verifyToken : WebRequest -> option string -> option AuthInfo * list LogEntry :=
  verifyTokenWith "[OAuth] Bearer token too short" "[OAuth] Bearer token validated".

(** app/api/[transport]/route.ts *)
Definition verifyToken_route : WebRequest -> option string -> option AuthInfo * list LogEntry :=
  verifyTokenWith "[OAuth] Bearer token too short to be valid API key"
                  "[OAuth] Bearer token validated successfully".

(** The MCP payload a tool callback returns; [isError] is absent on success. *)
Record ContentItem : Type := { type : string; text : string }.

Record McpPayload : Type := {
  content : list ContentItem;
  isError : option bool
}.

Definition textItem (s : string) : ContentItem := {| type := "text"; text := s |}.

Definition successPayload (s : string) : McpPayload :=
  {| content := [textItem s]; isError := None |}.

Definition errorPayload (e : JsError) : McpPayload :=
  {| content := [textItem ("Error: " +++ message e)]; isError := Some true |}.

(** One invocation of [executeToolDirectly(name, args, apiKey)]. *)
Record Call : Type := { callTool : string; callArgs : json; callApiKey : string }.

Definition apiKeyRequired : string :=
  "API key required. Please provide your Instantly.ai API key.".

(** [extra?.auth?.extra?.apiKey] *)
Definition readApiKey (x : option HandlerExtra) : option string :=
  match x with
  | None => None
  | Some hx =>
      match auth hx with
      | None => None
      | Some info =>
          match extra info with
          | None => None
          | Some ex => apiKey ex
          end
      end
  end.

(** [!apiKey] *)
Definition apiKeyMissing (k : option string) : bool :=
  match k with
  | None => true
  | Some s => negb (truthy s)
  end.

Section ToolCallback.

(** The tool executor of src/handlers/tool-executor.ts: it returns a value
    or throws an [Error]. *)
Variable executeToolDirectly : string -> json -> string -> Completion json.

(** The [try] block of the callback registered for the tool [toolName],
    with the invocations of the executor it performed. *)
Definition callbackTry (toolName : string) (args : json) (x : option HandlerExtra)
    : Completion McpPayload * list Call :=
  match readApiKey x with
  | None => (Thrown (newError apiKeyRequired), [])
  | Some k =>
      if apiKeyMissing (Some k)
      then (Thrown (newError apiKeyRequired), [])
      else
        let call := {| callTool := toolName; callArgs := args; callApiKey := k |} in
        match executeToolDirectly toolName args k with
        | Thrown e => (Thrown e, [call])
        | Returned result =>
            (Returned (successPayload
                         match result with
                         | JStr s => s
                         | _ => JSON_stringify result 2
                         end),
             [call])
        end
  end.

(** The whole callback: [try { ... } catch (error) { ... }]. *)
Definition toolCallback (toolName : string) (args : json) (x : option HandlerExtra)
    : McpPayload * list Call :=
  match callbackTry toolName args x with
  | (Returned p, calls) => (p, calls)
  | (Thrown e, calls) => (errorPayload e, calls)
  end.

End ToolCallback.

Definition isSuccessPayload (p : McpPayload) : Prop :=
  isError p = None /\ exists s, content p = [textItem s].

Definition isErrorPayload (p : McpPayload) : Prop :=
  isError p = Some true /\ exists msg, content p = [textItem ("Error: " +++ msg)].

(** A request and the [AuthInfo] its sixteen-character key is given. *)
Definition sampleRequest : WebRequest :=
  {| reqUrl := "https://instantly-mcp.vercel.app/api/mcp";
     reqMethod := "POST";
     reqHeaders := [("authorization", "Bearer inst_key_0123456")];
     reqBody := None |}.

Definition sampleInfo : AuthInfo :=
  {| token := "inst_key_0123456";
     scopes := ["read"; "write"];
     clientId := "instantly-user";
     extra := Some {| apiKey := Some "inst_key_0123456" |} |}.

End McpAuth.

(** ** api/mcp-oauth.ts: the exported Vercel function *)

Module VercelFunction.
Import McpAuth.

(** A value of [req.headers]: [string | string[] | undefined]. *)
Inductive HeaderValue : Type :=
| HStr (s : string)
| HArr (l : list string)
| HUndefined.

Record VercelRequest : Type := {
  method : option string;
  url : option string;
  headers : list (string * HeaderValue);
  body : option json
}.

(** What [res.send] / [res.json] were given. *)
Inductive Sent : Type :=
| SentText (s : string)
| SentJson (j : json).

Record VercelResponse : Type := {
  statusCode : Z;
  setHeaders : list (string * string);
  sent : Sent
}.

(** The standard [Response] returned by [authHandler]. *)
Record WebResponse : Type := {
  status : Z;
  respHeaders : list (string * string);
  respText : string
}.

(** Property read [obj[key]] on the headers object. *)
Fixpoint getHeader (key : string) (hs : list (string * HeaderValue)) : HeaderValue :=
  match hs with
  | [] => HUndefined
  | (k, v) :: rest => if String.eqb k key then v else getHeader key rest
  end.

Definition headerTruthy (v : HeaderValue) : bool :=
  match v with
  | HStr s => truthy s
  | HArr _ => true
  | HUndefined => false
  end.

(** [a || b] *)
Definition orElse (a b : HeaderValue) : HeaderValue :=
  if headerTruthy a then a else b.

(** String conversion inside a template literal. *)
Definition headerToString (v : HeaderValue) : string :=
  match v with
  | HStr s => s
  | HArr l => join "," l
  | HUndefined => "undefined"
  end.

Definition optToString (o : option string) : string :=
  match o with
  | Some s => s
  | None => "undefined"
  end.

Definition headerArg (v : HeaderValue) : LogArg :=
  match v with
  | HStr s => AStr s
  | HArr l => AStrs l
  | HUndefined => AUndefined
  end.

Definition optArg (o : option string) : LogArg :=
  match o with
  | Some s => AStr s
  | None => AUndefined
  end.

(** The headers object as [JSON.stringify] sees it: properties whose value
    is [undefined] are skipped. *)
Fixpoint headersJson (hs : list (string * HeaderValue)) : list (string * json) :=
  match hs with
  | [] => []
  | (k, HStr s) :: rest => (k, JStr s) :: headersJson rest
  | (k, HArr l) :: rest => (k, JArr (map JStr l)) :: headersJson rest
  | (_, HUndefined) :: rest => headersJson rest
  end.

Definition lowerChar (c : ascii) : ascii :=
  let n := nat_of_ascii c in
  if Nat.leb 65 n && Nat.leb n 90 then ascii_of_nat (n + 32) else c.

Fixpoint toLowerCase (s : string) : string :=
  match s with
  | EmptyString => EmptyString
  | String c rest => String (lowerChar c) (toLowerCase rest)
  end.

(** [Headers.prototype.set]: names are case-insensitive; an existing entry
    is replaced in place, a new one is added at the end. *)
Fixpoint headersSet (name value : string) (hs : list (string * string))
    : list (string * string) :=
  match hs with
  | [] => [(toLowerCase name, value)]
  | (k, v) :: rest =>
      if String.eqb k (toLowerCase name)
      then (k, value) :: rest
      else (k, v) :: headersSet name value rest
  end.

(** [Object.entries(req.headers).forEach(([key, value]) => { if (value)
    headers.set(key, Array.isArray(value) ? value[0] : value) })];
    [value[0]] of an empty array is [undefined], which [set] turns into the
    text "undefined". *)
Fixpoint copyHeaders (hs : list (string * HeaderValue)) (acc : list (string * string))
    : list (string * string) :=
  match hs with
  | [] => acc
  | (k, v) :: rest =>
      if headerTruthy v
      then copyHeaders rest
             (headersSet k
                match v with
                | HArr l => optToString (hd_error l)
                | other => headerToString other
                end acc)
      else copyHeaders rest acc
  end.

(** [req.method !== 'GET' && req.method !== 'HEAD' ? JSON.stringify(req.body) : null] *)
Definition requestBody (req : VercelRequest) : option string :=
  match method req with
  | Some m =>
      if String.eqb m "GET" || String.eqb m "HEAD" then None
      else option_map (fun b => JSON_stringify b 0) (body req)
  | None => option_map (fun b => JSON_stringify b 0) (body req)
  end.

(** [req.method || 'GET'] *)
Definition methodOrGet (req : VercelRequest) : string :=
  match method req with
  | Some m => if truthy m then m else "GET"
  | None => "GET"
  end.

Definition requestUrl (req : VercelRequest) : string :=
  "https://" +++ headerToString (getHeader "host" (headers req))
             +++ optToString (url req).

(** *** The [Request] constructor *)

(** The ways in which [new Request(url, {method, headers, body})] fails;
    each of them is a [TypeError]. *)
Inductive RequestFault : Type :=
| InvalidUrl
| InvalidMethod
| ForbiddenMethod
| BodyNotAllowed.

(** What the platform brings to the constructor: its URL parser, which
    gives the serialised URL of a text or fails (also for a URL that holds
    credentials), and the [TypeError] objects that are thrown. *)
Record Platform : Type := {
  parseUrl : string -> option string;
  typeError : RequestFault -> JsError
}.

Definition upperChar (c : ascii) : ascii :=
  let n := nat_of_ascii c in
  if Nat.leb 97 n && Nat.leb n 122 then ascii_of_nat (n - 32) else c.

Fixpoint toUpperCase (s : string) : string :=
  match s with
  | EmptyString => EmptyString
  | String c rest => String (upperChar c) (toUpperCase rest)
  end.

(** The characters of an HTTP token. *)
Definition isTokenChar (c : ascii) : bool :=
  let n := nat_of_ascii c in
  (Nat.leb 48 n && Nat.leb n 57)
  || (Nat.leb 65 n && Nat.leb n 90)
  || (Nat.leb 97 n && Nat.leb n 122)
  || existsb (Ascii.eqb c) (list_ascii_of_string "!#$%&'*+-.^_`|~").

Definition isToken (s : string) : bool :=
  truthy s && forallb isTokenChar (list_ascii_of_string s).

Definition oneOf (s : string) (l : list string) : bool := existsb (String.eqb s) l.

Definition isForbiddenMethod (m : string) : bool :=
  oneOf (toUpperCase m) ["CONNECT"; "TRACE"; "TRACK"].

(** The six methods that are written in capitals whatever their case. *)
Definition normalizeMethod (m : string) : string :=
  if oneOf (toUpperCase m) ["DELETE"; "GET"; "HEAD"; "OPTIONS"; "POST"; "PUT"]
  then toUpperCase m else m.

Definition hasContentType (hs : list (string * string)) : bool :=
  existsb (fun kv => String.eqb (toLowerCase (fst kv)) "content-type") hs.

(** [new Request(url, {method, headers, body})] for a body that is a text
    or absent: the URL must parse, the method must be a token and none of
    the forbidden ones, and a request with the method GET or HEAD must have
    no body. A text body brings the header
    [content-type: text/plain;charset=UTF-8] unless the headers name a
    content type. *)
Definition newRequest (platform : Platform) (url method : string)
    (hs : list (string * string)) (body : option string) : Completion WebRequest :=
  match parseUrl platform url with
  | None => Thrown (typeError platform InvalidUrl)
  | Some href =>
      if negb (isToken method) then Thrown (typeError platform InvalidMethod)
      else if isForbiddenMethod method then Thrown (typeError platform ForbiddenMethod)
      else
        match body with
        | Some text =>
            if oneOf (normalizeMethod method) ["GET"; "HEAD"]
            then Thrown (typeError platform BodyNotAllowed)
            else Returned {| reqUrl := href;
                             reqMethod := normalizeMethod method;
                             reqHeaders :=
                               if hasContentType hs then hs
                               else hs ++ [("content-type", "text/plain;charset=UTF-8")];
                             reqBody := Some text |}
        | None =>
            Returned {| reqUrl := href;
                        reqMethod := normalizeMethod method;
                        reqHeaders := hs;
                        reqBody := None |}
        end
  end.

Section Handler.

Variable platform : Platform.

(** [authHandler = withMcpAuth(baseHandler, verifyToken, ...)] of the
    mcp-handler package: it answers a request or throws. *)
Variable authHandler : WebRequest -> Completion WebResponse.

(** The exported function of api/mcp-oauth.ts, in the revision that logs
    the request: the response it sends and the lines it writes to the
    console. Whatever the [Request] constructor or [authHandler] throws is
    caught by the [catch] block. *)
Definition handler (req : VercelRequest) : VercelResponse * list LogEntry :=
  let log1 :=
    [ console_log [AStr "[Vercel] Incoming request:"; optArg (method req); optArg (url req)];
      console_log [AStr "[Vercel] Headers:";
                   AStr (JSON_stringify (JObj (headersJson (headers req))) 2)] ] in
  let hdrs := copyHeaders (headers req) [] in
  let authHeader :=
    orElse (getHeader "authorization" (headers req))
           (getHeader "Authorization" (headers req)) in
  let log2 := log1 ++ [console_log [AStr "[Vercel] Authorization header:"; headerArg authHeader]] in
  let answered :=
    match newRequest platform (requestUrl req) (methodOrGet req) hdrs (requestBody req) with
    | Returned request => authHandler request
    | Thrown error => Thrown error
    end in
  match answered with
  | Returned response =>
      ({| statusCode := status response;
          setHeaders := respHeaders response;
          sent := SentText (respText response) |},
       log2 ++ [console_log [AStr "[Vercel] Response status:"; ANum (status response)]])
  | Thrown error =>
      ({| statusCode := 500;
          setHeaders := [];
          sent := SentJson (JObj [("error", JStr "Internal server error");
                                  ("message", JStr (message error));
                                  ("stack", JStr (stack error))]) |},
       log2 ++ [console_error [AStr "[Handler Error]"; AError error];
                console_error [AStr "[Handler Error Stack]"; AStr (stack error)]])
  end.

(** The other revision of the same file: [req.headers] is passed to the
    [Request] constructor as it is, and nothing is logged unless the
    handler throws. *)
Definition handler_previous (req : VercelRequest) : VercelResponse * list LogEntry :=
  let answered :=
    match newRequest platform (requestUrl req) (methodOrGet req)
            (map (fun kv => (toLowerCase (fst kv), headerToString (snd kv))) (headers req))
            (requestBody req) with
    | Returned request => authHandler request
    | Thrown error => Thrown error
    end in
  match answered with
  | Returned response =>
      ({| statusCode := status response;
          setHeaders := respHeaders response;
          sent := SentText (respText response) |},
       [])
  | Thrown error =>
      ({| statusCode := 500;
          setHeaders := [];
          sent := SentJson (JObj [("error", JStr "Internal server error");
                                  ("message", JStr (message error))]) |},
       [console_error [AStr "[Handler Error]"; AError error]])
  end.

End Handler.

(** The text a console argument is printed as. *)
Definition argText (a : LogArg) : string :=
  match a with
  | AStr s => s
  | AStrs l => join "," l
  | ANum z => string_of_Z z
  | AUndefined => "undefined"
  | AError e => stack e
  end.

(** [contains needle hay]: [needle] occurs in [hay]. *)
Fixpoint contains (needle hay : string) : bool :=
  String.prefix needle hay ||
  match hay with
  | EmptyString => false
  | String _ rest => contains needle rest
  end.

(** Some argument of some console call of the log shows [needle]. *)
Definition logShows (needle : string) (log : list LogEntry) : bool :=
  existsb (fun entry => existsb (fun a => contains needle (argText a)) (snd entry)) log.

(** The same request presenting the API key [key] as its bearer token. *)
Definition withBearer (key : string) (req : VercelRequest) : VercelRequest :=
  {| method := method req;
     url := url req;
     headers := ("authorization", HStr ("Bearer " +++ key)) :: headers req;
     body := body req |}.

(** The first three console calls of [handler] do not depend on what
    [authHandler] does. *)
Definition preamble (req : VercelRequest) : list LogEntry :=
  [ console_log [AStr "[Vercel] Incoming request:"; optArg (method req); optArg (url req)];
    console_log [AStr "[Vercel] Headers:";
                 AStr (JSON_stringify (JObj (headersJson (headers req))) 2)];
    console_log [AStr "[Vercel] Authorization header:";
                 headerArg (orElse (getHeader "authorization" (headers req))
                                   (getHeader "Authorization" (headers req)))] ].

(** A platform for the examples: its parser takes every URL as it is
    written. *)
Definition samplePlatform : Platform :=
  {| parseUrl := fun u => Some u;
     typeError := fun fault =>
       let msg := match fault with
                  | InvalidUrl => "Invalid URL"
                  | InvalidMethod => "Invalid HTTP method"
                  | ForbiddenMethod => "HTTP method is unsupported."
                  | BodyNotAllowed => "Request with GET/HEAD method cannot have body."
                  end in
       {| message := msg; stack := "TypeError: " +++ msg |} |}.

(** An [authHandler] that answers 200, and a tool call. *)
Definition okHandler : WebRequest -> Completion WebResponse :=
  fun _ => Returned {| status := 200; respHeaders := []; respText := "{}" |}.

Definition toolCall : VercelRequest :=
  {| method := Some "POST";
     url := Some "/api/mcp";
     headers := [("host", HStr "instantly-mcp.vercel.app")];
     body := Some (JObj [("method", JStr "tools/call")]) |}.

End VercelFunction.

(** ** src/oauth-config.ts: the OAuth discovery endpoints *)

Module OAuthConfig.

Record Config : Type := { host : string; port : Z }.

(** The two variables of [process.env] the module reads. *)
Record Env : Type := { NODE_ENV : option string; VERCEL : option string }.

(** An Express request, as far as the router and a route handler read
    it: [originalUrl] is the request target as Node delivers it, the path
    followed by the query string if there is one. *)
Record ExpressRequest : Type := {
  originalUrl : string;
  reqHeaders : list (string * string);
  reqBody : option json
}.

(** The path name of a request target in origin form: the text before the
    first [?] or [#]. *)
Fixpoint pathname (target : string) : string :=
  match target with
  | EmptyString => EmptyString
  | String c rest =>
      if Ascii.eqb c "?" || Ascii.eqb c "#" then EmptyString
      else String c (pathname rest)
  end.

(** [req.path], which the router matches the routes against. *)
Definition reqPath (req : ExpressRequest) : string := pathname (originalUrl req).

(** The method of a request, and the method a route is registered for. *)
Inductive Verb : Type := GET | POST | HEAD | PUT | DELETE | PATCH | OPTIONS.

Definition verb_eqb (a b : Verb) : bool :=
  match a, b with
  | GET, GET => true
  | POST, POST => true
  | HEAD, HEAD => true
  | PUT, PUT => true
  | DELETE, DELETE => true
  | PATCH, PATCH => true
  | OPTIONS, OPTIONS => true
  | _, _ => false
  end.

(** A route handler answers with [res.json(obj)] after writing to the
    console. *)
Definition RouteHandler : Type := ExpressRequest -> list LogEntry * json.

Record Route : Type := { routeVerb : Verb; routePath : string; routeHandler : RouteHandler }.

(** The Express application: its routes in registration order. *)
Definition App : Type := list Route.

(** [app.get(path, h)] / [app.post(path, h)] *)
Definition app_get (app : App) (path : string) (h : RouteHandler) : App :=
  app ++ [{| routeVerb := GET; routePath := path; routeHandler := h |}].

Definition app_post (app : App) (path : string) (h : RouteHandler) : App :=
  app ++ [{| routeVerb := POST; routePath := path; routeHandler := h |}].

(** Whether a route registered for [routed] takes a request of the method
    [requested]: its own method, and a route that has no HEAD handler takes
    a HEAD request as a GET request. *)
Definition handlesMethod (routed requested : Verb) : bool :=
  verb_eqb routed requested || (verb_eqb requested HEAD && verb_eqb routed GET).

(** [p] without its final slash, if it has one. *)
Fixpoint dropSlash (p : string) : string :=
  match p with
  | EmptyString => EmptyString
  | String c rest =>
      match rest with
      | EmptyString => if Ascii.eqb c "/" then EmptyString else p
      | String _ _ => String c (dropSlash rest)
      end
  end.

(** Whether the route path [routed] matches the path name [path], with the
    default settings of the router (routing neither case sensitive nor
    strict): the letters are compared without regard to case and one slash
    at the end is optional. The route path is taken to be a plain ASCII
    path without pattern characters, as all the paths of this file are. *)
Definition matchPath (routed path : string) : bool :=
  String.eqb (VercelFunction.toLowerCase path)
             (VercelFunction.toLowerCase (dropSlash routed))
  || String.eqb (VercelFunction.toLowerCase path)
                (VercelFunction.toLowerCase (dropSlash routed) +++ "/").

(** The answer of the route handler that takes the request: the first
    registered route whose method and path match. [None] when no route
    handler takes it; Express then answers by itself (not found, or the
    allowed methods for an OPTIONS request). *)
Fixpoint dispatch (app : App) (v : Verb) (req : ExpressRequest) : option (list LogEntry * json) :=
  match app with
  | [] => None
  | r :: rest =>
      if handlesMethod (routeVerb r) v && matchPath (routePath r) (reqPath req)
      then Some (routeHandler r req)
      else dispatch rest v req
  end.

Definition optTruthy (o : option string) : bool :=
  match o with
  | Some s => truthy s
  | None => false
  end.

Definition getBaseUrl (env : Env) (config : Config) : string :=
  if (match NODE_ENV env with Some s => String.eqb s "production" | None => false end)
     || optTruthy (VERCEL env)
  then "https://instantly-mcp.vercel.app"
  else "http://" +++ host config +++ ":" +++ string_of_Z (port config).

Definition documentation : string := "https://github.com/Instantly-ai/instantly-mcp".

Definition authorizationServerMetadata (env : Env) (config : Config) : RouteHandler :=
  fun _ =>
    let baseUrl := getBaseUrl env config in
    ([console_error [AStr "[HTTP] 🔍 OAuth discovery: /.well-known/oauth-authorization-server"]],
     JObj [("issuer", JStr baseUrl);
           ("service_documentation", JStr documentation);
           ("token_endpoint_auth_methods_supported", JArr [JStr "none"]);
           ("grant_types_supported", JArr [JStr "client_credentials"]);
           ("response_types_supported", JArr [JStr "token"]);
           ("scopes_supported", JArr [JStr "read"; JStr "write"]);
           ("authorization_endpoint", JStr (baseUrl +++ "/oauth/authorize"));
           ("token_endpoint", JStr (baseUrl +++ "/oauth/token"))]).

Definition protectedResourceMetadata (env : Env) (config : Config) : RouteHandler :=
  fun _ =>
    let baseUrl := getBaseUrl env config in
    ([console_error [AStr "[HTTP] 🔍 OAuth discovery: /.well-known/oauth-protected-resource"]],
     JObj [("resource", JStr baseUrl);
           ("authorization_servers", JArr [JStr baseUrl]);
           ("bearer_methods_supported", JArr [JStr "header"]);
           ("resource_documentation", JStr documentation);
           ("scopes_supported", JArr [JStr "read"; JStr "write"]);
           ("token_introspection_endpoint", JStr (baseUrl +++ "/oauth/introspect"))]).

Definition tokenEndpoint : RouteHandler :=
  fun _ =>
    ([console_error [AStr "[HTTP] 🔑 OAuth token request"]],
     JObj [("access_token", JStr "use_instantly_api_key_as_bearer_token");
           ("token_type", JStr "Bearer");
           ("expires_in", JNum 3600);
           ("scope", JStr "read write")]).

Definition authorizeEndpoint : RouteHandler :=
  fun _ =>
    ([console_error [AStr "[HTTP] 🔐 OAuth authorization request"]],
     JObj [("message", JStr "Use your Instantly.ai API key as the Bearer token");
           ("instructions",
            JStr "Set Authorization header to: Bearer YOUR_INSTANTLY_API_KEY")]).

Definition introspectEndpoint : RouteHandler :=
  fun _ =>
    ([console_error [AStr "[HTTP] 🔍 OAuth token introspection"]],
     JObj [("active", JBool true);
           ("scope", JStr "read write");
           ("token_type", JStr "Bearer")]).

Definition setupOAuthEndpoints (env : Env) (app : App) (config : Config) : App :=
  let app1 := app_get app "/.well-known/oauth-authorization-server"
                (authorizationServerMetadata env config) in
  let app2 := app_get app1 "/.well-known/oauth-protected-resource"
                (protectedResourceMetadata env config) in
  let app3 := app_post app2 "/oauth/token" tokenEndpoint in
  let app4 := app_get app3 "/oauth/authorize" authorizeEndpoint in
  app_post app4 "/oauth/introspect" introspectEndpoint.

(** The constant answer of the introspection endpoint. *)
Definition activeToken : json :=
  JObj [("active", JBool true); ("scope", JStr "read write"); ("token_type", JStr "Bearer")].

(** A request for the introspection endpoint. *)
Definition introspectRequest (hs : list (string * string)) (b : option json) : ExpressRequest :=
  {| originalUrl := "/oauth/introspect"; reqHeaders := hs; reqBody := b |}.

End OAuthConfig.

(** ** src/vercel-adapter.ts and the serverless entry points *)

Module VercelAdapter.
Import VercelFunction.

Section Adapter.

(** The Express application object held by the transport. *)
Variable App : Type.

(** [new Server(...)], [registerMcpHandlers(server)] and
    [new StreamingHttpTransport(server, ...)] followed by the read of
    [transport.app], for the initialization that follows [n] earlier ones:
    the constructors throw, or the read yields the application, or
    [undefined]. *)
Variable construct : nat -> Completion (option App).

(** The module state of the adapter: the [cachedApp] variable, the number of
    initializations started, and the console. *)
Record AdapterState : Type := {
  cachedApp : option App;
  initializations : nat;
  console : list LogEntry
}.

Definition initialAdapter : AdapterState :=
  {| cachedApp := None; initializations := 0; console := [] |}.

Definition createServer (st : AdapterState) : Completion App * AdapterState :=
  match cachedApp st with
  | Some app => (Returned app, st)
  | None =>
      let started :=
        {| cachedApp := None;
           initializations := S (initializations st);
           console := console st
                      ++ [console_error [AStr "[Vercel] Initializing Instantly MCP Server..."]] |} in
      match construct (initializations st) with
      | Thrown e => (Thrown e, started)
      | Returned None => (Thrown (newError "Failed to create Express app"), started)
      | Returned (Some app) =>
          (Returned app,
           {| cachedApp := Some app;
              initializations := initializations started;
              console := console started
                         ++ [console_error [AStr "[Vercel] Express app initialized successfully"]] |})
      end
  end.

(** Calling the Express application on a request: [serverInstance(req, res)]. *)
Variable runApp : App -> VercelRequest -> Completion VercelResponse.

(** The module state of a serverless entry point: its own [serverInstance]
    variable, the adapter module it imports, and its console. *)
Record FunctionState : Type := {
  serverInstance : option App;
  adapter : AdapterState;
  output : list LogEntry
}.

Definition initialFunction : FunctionState :=
  {| serverInstance := None; adapter := initialAdapter; output := [] |}.

Definition say (st : FunctionState) (entries : list LogEntry) : FunctionState :=
  {| serverInstance := serverInstance st;
     adapter := adapter st;
     output := output st ++ entries |}.

Definition internalError (e : JsError) (fields : list (string * json)) : VercelResponse :=
  {| statusCode := 500;
     setHeaders := [];
     sent := SentJson (JObj ([("error", JStr "Internal server error");
                              ("message", JStr (message e))] ++ fields)) |}.

(** The [try] block of api/index.js: the result of the application, or
    what was thrown (by [createServer] or by the application). *)
Definition handlerTry (st : FunctionState) (req : VercelRequest)
    : Completion VercelResponse * FunctionState :=
  match serverInstance st with
  | Some app => (runApp app req, st)
  | None =>
      match createServer (adapter st) with
      | (Returned app, ad) =>
          (runApp app req,
           {| serverInstance := Some app; adapter := ad; output := output st |})
      | (Thrown e, ad) =>
          (Thrown e, {| serverInstance := None; adapter := ad; output := output st |})
      end
  end.

(** api/index.js *)
Definition handler (st : FunctionState) (req : VercelRequest)
    : VercelResponse * FunctionState :=
  match handlerTry st req with
  | (Returned response, st1) => (response, st1)
  | (Thrown e, st1) =>
      (internalError e [],
       say st1 [console_error [AStr "Error handling request:"; AError e]])
  end.

(** The [try] block of the revision of api/index.js with diagnostic logging
    and a dynamic import. *)
Definition handlerLoggingTry (st : FunctionState) (req : VercelRequest)
    : Completion VercelResponse * FunctionState :=
  let st1 := say st [console_log [AStr "[Vercel] Handler invoked:";
                                  optArg (method req); optArg (url req)]] in
  let handling := console_log [AStr "[Vercel] Handling request with Express app"] in
  match serverInstance st1 with
  | Some app => (runApp app req, say st1 [handling])
  | None =>
      let st2 := say st1 [console_log [AStr "[Vercel] Initializing server instance..."];
                          console_log [AStr "[Vercel] Module loaded successfully"]] in
      match createServer (adapter st2) with
      | (Returned app, ad) =>
          (runApp app req,
           {| serverInstance := Some app;
              adapter := ad;
              output := output st2
                        ++ [console_log [AStr "[Vercel] Server instance created"]; handling] |})
      | (Thrown e, ad) =>
          (Thrown e, {| serverInstance := None; adapter := ad; output := output st2 |})
      end
  end.

(** That revision; [development] is [process.env.NODE_ENV === 'development']. *)
Definition handler_logging (development : bool) (st : FunctionState) (req : VercelRequest)
    : VercelResponse * FunctionState :=
  match handlerLoggingTry st req with
  | (Returned response, st1) => (response, st1)
  | (Thrown e, st1) =>
      (internalError e (if development then [("stack", JStr (stack e))] else []),
       say st1 [console_error [AStr "[Vercel] Error handling request:"; AError e];
                console_error [AStr "[Vercel] Error stack:"; AStr (stack e)]])
  end.

(** [n] further calls of [createServer], with the values they return. *)
Fixpoint createServerTimes (n : nat) (st : AdapterState)
    : list (Completion App) * AdapterState :=
  match n with
  | O => ([], st)
  | S k =>
      let (r, st1) := createServer st in
      let (rs, st2) := createServerTimes k st1 in
      (r :: rs, st2)
  end.

End Adapter.

Arguments cachedApp {App} _.
Arguments initializations {App} _.
Arguments console {App} _.
Arguments initialAdapter {App}.
Arguments createServer {App} construct st.
Arguments createServerTimes {App} construct n st.
Arguments serverInstance {App} _.
Arguments adapter {App} _.
Arguments output {App} _.
Arguments initialFunction {App}.
Arguments handlerTry {App} construct runApp st req.
Arguments handler {App} construct runApp st req.
Arguments handlerLoggingTry {App} construct runApp st req.
Arguments handler_logging {App} construct runApp development st req.

(** A transport whose first construction exposes no application and whose
    later ones expose application number 7. *)
Definition flakyConstruct (n : nat) : Completion (option nat) :=
  match n with
  | O => Returned None
  | S _ => Returned (Some 7)
  end.

Definition steadyConstruct (n : nat) : Completion (option nat) := Returned (Some 7).

Definition afterFailedStart : AdapterState nat :=
  {| cachedApp := None;
     initializations := 1;
     console := [console_error [AStr "[Vercel] Initializing Instantly MCP Server..."]] |}.

End VercelAdapter.

(** ** The pagination engine (specification, section 4.2) *)

Module Pagination.

(** Modelled from the spec: the failure classes of the HTTP Request Client
    (section 4.1); the client is not among the sources. *)
Inductive RequestError : Type :=
| AuthenticationError
| AuthorizationError
| NotFoundError
| ValidationError (responseBody : string)
| RateLimitError (retryAfter : nat)
| UpstreamServerError (httpStatus : nat)
| NetworkError.

(** Modelled from the spec: the [stoppedReason] enumeration of
    [PaginationResult] (section 3). *)
Inductive StoppedReason : Type :=
| Exhausted
| SafetyLimitReached
| CallerLimitReached
| UpstreamError.

Section Engine.

Context {T Cursor U : Type}.

(** Modelled from the spec: one page of a cursor-paginated list endpoint,
    its items in upstream order and the cursor of the next page, if any. *)
Record Page : Type := { pageItems : list T; nextCursor : option Cursor }.

(** Modelled from the spec: the result of one call of the Request Client. *)
Inductive Reply : Type :=
| Ok (page : Page)
| Failed (e : RequestError).

(** Modelled from the spec: [PaginationResult<T>] (section 3). *)
Record PaginationResult : Type := {
  items : list T;
  isComplete : bool;
  totalFetched : nat;
  stoppedReason : StoppedReason
}.

(** Modelled from the spec: what a pagination run leaves behind: the
    result, the underlying error surfaced alongside it, the number of loop
    iterations, the progress reports, the pauses taken after rate-limit
    errors, and the state of the upstream. *)
Record FetchOutcome : Type := {
  result : PaginationResult;
  error : option RequestError;
  iterations : nat;
  progress : list nat;
  pauses : list nat;
  upstream : U
}.

(** The Request Client on the upstream: state, endpoint, cursor and page
    size give a reply and the next state. *)
Variable send : U -> string -> option Cursor -> nat -> Reply * U.

Variable endpoint : string.
Variables pageSize maxPages maxItems maxBackoff : nat.

(** Modelled from the spec: a request of the engine for one page. After a
    [RateLimitError] the engine pauses for the indicated duration, bounded
    by the maximum backoff, and retries the same cursor once; the second
    reply stands, whatever it is. *)
Definition requestPage (u : U) (cursor : option Cursor) : Reply * U * list nat :=
  match send u endpoint cursor pageSize with
  | (Failed (RateLimitError retryAfter), u1) =>
      (send u1 endpoint cursor pageSize, [Nat.min retryAfter maxBackoff])
  | (reply, u1) => (reply, u1, [])
  end.

(** Modelled from the spec: the variables of the loop: the current
    cursor, the accumulator, the iteration count, and the progress reports
    and pauses so far. *)
Record LoopState : Type := {
  cursor : option Cursor;
  acc : list T;
  iter : nat;
  reported : list nat;
  paused : list nat;
  ustate : U
}.

(** Modelled from the spec: the outcome of a run that stops with the items
    [its] for the reason [reason]; [isComplete] holds when no page remains
    or the safety limit was hit. *)
Definition finish (its : list T) (reason : StoppedReason) (err : option RequestError)
    (n : nat) (reports waits : list nat) (u : U) : FetchOutcome :=
  {| result := {| items := its;
                  isComplete := match reason with
                                | Exhausted | SafetyLimitReached => true
                                | CallerLimitReached | UpstreamError => false
                                end;
                  totalFetched := length its;
                  stoppedReason := reason |};
     error := err;
     iterations := n;
     progress := reports;
     pauses := waits;
     upstream := u |}.

(** Modelled from the spec: the loop of [fetchAll] (section 4.2). Each
    iteration requests the page at the current cursor, appends its items to
    the accumulator, reports progress, and checks in this order: (a) no
    further cursor, (b) accumulated items reach [maxItems], (c) the
    iteration count reaches [maxPages]; (d) a failed request stops the loop
    with the items gathered so far and the error. *)
Equations? fetchLoop (s : LoopState) : FetchOutcome by wf (maxPages - iter s) lt :=
  fetchLoop s with requestPage (ustate s) (cursor s) => {
    | (Failed e, u1, waits) :=
        finish (acc s) UpstreamError (Some e) (S (iter s))
               (reported s) (paused s ++ waits) u1;
    | (Ok page, u1, waits) with nextCursor page => {
        | None :=
            finish (acc s ++ pageItems page) Exhausted None (S (iter s))
                   (reported s ++ [length (acc s ++ pageItems page)])
                   (paused s ++ waits) u1;
        | Some next with Nat.leb maxItems (length (acc s ++ pageItems page)) => {
            | true :=
                finish (acc s ++ pageItems page) CallerLimitReached None (S (iter s))
                       (reported s ++ [length (acc s ++ pageItems page)])
                       (paused s ++ waits) u1;
            | false with le_lt_dec maxPages (S (iter s)) => {
                | left _ :=
                    finish (acc s ++ pageItems page) SafetyLimitReached None (S (iter s))
                           (reported s ++ [length (acc s ++ pageItems page)])
                           (paused s ++ waits) u1;
                | right _ :=
                    fetchLoop {| cursor := Some next;
                                 acc := acc s ++ pageItems page;
                                 iter := S (iter s);
                                 reported := reported s ++ [length (acc s ++ pageItems page)];
                                 paused := paused s ++ waits;
                                 ustate := u1 |} } } } }.
Proof. simpl. lia. Qed.

(** Modelled from the spec: [fetchAll(endpoint, pageSize, maxPages,
    maxItems)], started on the upstream state [u] with cursor = null. *)
Definition fetchAll (u : U) : FetchOutcome :=
  fetchLoop {| cursor := None; acc := []; iter := 0;
               reported := []; paused := []; ustate := u |}.

End Engine.

Arguments Page : clear implicits.
Arguments Reply : clear implicits.
Arguments PaginationResult : clear implicits.
Arguments FetchOutcome : clear implicits.
Arguments LoopState : clear implicits.

(** *** Simulated upstreams (specification, section 8) *)

Section Simulated.

Context {T : Type}.

(** Modelled from the spec: a simulated upstream keeps no state; its
    cursor is a position, and no cursor means the start. *)
Definition position (c : option nat) : nat :=
  match c with
  | None => 0
  | Some k => k
  end.

(** Modelled from the spec: the simulated upstream holding the items [l],
    served in pages of the requested size; the cursor is the offset of the
    next item, and no cursor follows the page that reaches the end. *)
Definition pagedUpstream (l : list T) (u : unit) (endpoint : string)
    (c : option nat) (size : nat) : Reply T nat * unit :=
  let off := position c in
  (Ok {| pageItems := firstn size (skipn off l);
         nextCursor := if Nat.ltb (off + size) (length l)
                       then Some (off + size) else None |},
   u).

(** Modelled from the spec: the simulated upstream that never terminates:
    item number [i] is [f i], every page is full and is followed by a
    cursor. *)
Definition endlessUpstream (f : nat -> T) (u : unit) (endpoint : string)
    (c : option nat) (size : nat) : Reply T nat * unit :=
  let off := position c in
  (Ok {| pageItems := map f (seq off size); nextCursor := Some (off + size) |}, u).

(** Modelled from the spec: the simulated upstream that serves the pages
    [pages] one after the other, each followed by a cursor, and fails with
    [e] on every request for the page after them; the cursor is the number
    of pages served before. *)
Definition failingUpstream (pages : list (list T)) (e : RequestError) (u : unit)
    (endpoint : string) (c : option nat) (size : nat) : Reply T nat * unit :=
  match nth_error pages (position c) with
  | Some its => (Ok {| pageItems := its; nextCursor := Some (S (position c)) |}, u)
  | None => (Failed e, u)
  end.

End Simulated.

Section Runs.

Context {T Cursor U : Type}.

(** Modelled from the spec: the state the loop continues from after the
    page [page]: its items are appended and its cursor is adopted. *)
Definition advance (s : LoopState T Cursor U) (page : Page T Cursor) (next : Cursor)
    (u1 : U) (waits : list nat) : LoopState T Cursor U :=
  {| cursor := Some next;
     acc := acc s ++ pageItems page;
     iter := S (iter s);
     reported := reported s ++ [length (acc s ++ pageItems page)];
     paused := paused s ++ waits;
     ustate := u1 |}.

(** Modelled from the spec: an upstream that never terminates. Every
    request is answered by a page that is not empty, holds at most
    [pageSize] items and is followed by a cursor. *)
Definition neverTerminates
    (send : U -> string -> option Cursor -> nat -> Reply T Cursor * U)
    (endpoint : string) (pageSize : nat) : Prop :=
  forall (u : U) (c : option Cursor),
    exists (page : Page T Cursor) (next : Cursor) (u1 : U),
      send u endpoint c pageSize = (Ok page, u1)
      /\ nextCursor page = Some next
      /\ pageItems page <> []
      /\ length (pageItems page) <= pageSize.

(** Modelled from the spec: the items gathered in [n] iterations from the
    cursor [c] on: those of the pages that the upstream serves one after
    the other, each requested at the cursor that came with the page before,
    in upstream order. The series ends with a page that has no cursor or
    with a request that fails. *)
Fixpoint gathered (send : U -> string -> option Cursor -> nat -> Reply T Cursor * U)
    (endpoint : string) (pageSize n : nat) (u : U) (c : option Cursor) : list T :=
  match n with
  | O => []
  | S k =>
      match send u endpoint c pageSize with
      | (Ok page, u1) =>
          pageItems page
          ++ match nextCursor page with
             | Some next => gathered send endpoint pageSize k u1 (Some next)
             | None => []
             end
      | (Failed _, _) => []
      end
  end.

End Runs.

End Pagination.

(** ** Body normalization (specification, section 4.4) *)

Module BodyHtml.

Definition isNewline (c : ascii) : bool := Ascii.eqb c newline.

(** The lines of a text: the pieces between its line breaks, as
    [body.split] on the line-break character gives them. *)
Fixpoint splitLines (s : string) : list string :=
  match s with
  | EmptyString => [EmptyString]
  | String c rest =>
      if isNewline c then EmptyString :: splitLines rest
      else
        match splitLines rest with
        | [] => [str1 c]
        | line :: lines => String c line :: lines
        end
  end.

Definition startsWith (pre s : string) : bool := String.prefix pre s.

(** [s] ends with [suf]: some tail of [s] is [suf]. *)
Fixpoint endsWith (suf s : string) : bool :=
  String.eqb s suf ||
  match s with
  | EmptyString => false
  | String _ rest => endsWith suf rest
  end.

Definition openTag : string := "<p>".
Definition closeTag : string := "</p>".

(** Modelled from the spec: already-converted text, which is paragraph
    markup from its first to its last character. *)
Definition isConverted (s : string) : bool :=
  startsWith openTag s && endsWith closeTag s.

(** Modelled from the spec: one paragraph block; converted text is not
    wrapped again. *)
Definition paragraph (line : string) : string :=
  if isConverted line then line else openTag +++ line +++ closeTag.

Fixpoint concatAll (parts : list string) : string :=
  match parts with
  | [] => EmptyString
  | p :: rest => p +++ concatAll rest
  end.

(** Modelled from the spec: the paragraph conversion of the campaign
    workflow, which is not among the sources. Every line break of the body
    becomes a paragraph boundary: the body is cut at its line breaks and
    each piece becomes one paragraph block, except that a piece that is
    already converted is kept as it is. *)
Definition normalizeBody (body : string) : string :=
  concatAll (map paragraph (splitLines body)).

Fixpoint hasNewline (s : string) : bool :=
  match s with
  | EmptyString => false
  | String c rest => isNewline c || hasNewline rest
  end.

(** A converted text without line breaks. *)
Definition isBlock (s : string) : Prop :=
  isConverted s = true /\ hasNewline s = false.

End BodyHtml.

(** ** The tool validation script (src/unnamed/part_001) *)

Module ToolValidator.

Record ToolDefinition : Type := {
  name : string;
  description : string;
  inputSchema : json
}.

Inductive Status : Type := VALID | WARNING | ERROR.

Record ValidationResult : Type := {
  tool : string;
  issues : list string;
  status : Status
}.

Definition status_eqb (a b : Status) : bool :=
  match a, b with
  | VALID, VALID => true
  | WARNING, WARNING => true
  | ERROR, ERROR => true
  | _, _ => false
  end.

(** [hay.includes(needle)] on strings. *)
Fixpoint includes (needle hay : string) : bool :=
  String.prefix needle hay ||
  match hay with
  | EmptyString => false
  | String _ rest => includes needle rest
  end.

(** [array.includes(x)] on an array of strings. *)
Definition arrayIncludes (x : string) (l : list string) : bool :=
  existsb (String.eqb x) l.

(** A number inside a template literal. *)
Definition num (n : nat) : string := string_of_Z (Z.of_nat n).

Definition noImplementation : string := "No implementation found in switch statement".

Definition duplicateDefinition (n : nat) : string :=
  "Duplicate tool definition (" +++ num n +++ " instances)".

Definition descriptionTooShort : string :=
  "Description too short (should be more descriptive)".

Definition missingPrerequisite : string :=
  "Missing prerequisite documentation for list_accounts".

Definition orphanedCode : string :=
  "Implementation without tool definition (orphaned code)".

(** [definedTools.filter(t => t.name === tool.name)] *)
Definition duplicates (definedTools : list ToolDefinition) (t : ToolDefinition)
    : list ToolDefinition :=
  filter (fun t' => String.eqb (name t') (name t)) definedTools.

(** The number of UTF-16 code units that the character starting with the
    byte [c] takes: one for a character of one, two or three bytes, two for
    a character of four bytes (a surrogate pair); the bytes that continue a
    character (10xxxxxx) take none. *)
Definition codeUnits (c : ascii) : nat :=
  let n := nat_of_ascii c in
  if Nat.ltb n 128 then 1
  else if Nat.ltb n 192 then 0
  else if Nat.ltb n 240 then 1
  else 2.

(** [s.length] of a text that is not only ASCII. The script reads
    src/index.ts as UTF-8, and a [string] holds the text in that encoding,
    as the literals of this file do; [length] counts UTF-16 code units. *)
Fixpoint jsLength (s : string) : nat :=
  match s with
  | EmptyString => 0
  | String c rest => codeUnits c + jsLength rest
  end.

(** The issues collected for one defined tool, in the order of the checks. *)
Definition toolIssues (definedTools : list ToolDefinition) (implementedCases : list string)
    (t : ToolDefinition) : list string :=
  (if negb (arrayIncludes (name t) implementedCases) then [noImplementation] else [])
  ++ (if Nat.ltb 1 (length (duplicates definedTools t))
      then [duplicateDefinition (length (duplicates definedTools t))] else [])
  ++ (if Nat.ltb (jsLength (description t)) 20 then [descriptionTooShort] else [])
  ++ (if String.eqb (name t) "create_campaign"
         && negb (includes "list_accounts" (description t))
      then [missingPrerequisite] else []).

(** [issues.length === 0 ? 'VALID' : issues.some(i => i.includes('No
    implementation') || i.includes('Duplicate')) ? 'ERROR' : 'WARNING'] *)
Definition statusOf (found : list string) : Status :=
  match found with
  | [] => VALID
  | _ :: _ =>
      if existsb (fun i => includes "No implementation" i || includes "Duplicate" i) found
      then ERROR else WARNING
  end.

Definition checkTool (definedTools : list ToolDefinition) (implementedCases : list string)
    (t : ToolDefinition) : ValidationResult :=
  {| tool := name t;
     issues := toolIssues definedTools implementedCases t;
     status := statusOf (toolIssues definedTools implementedCases t) |}.

(** The second loop: one result for every case without a tool definition. *)
Definition orphans (definedTools : list ToolDefinition) (implementedCases : list string)
    : list ValidationResult :=
  flat_map
    (fun caseName =>
       if negb (existsb (fun t => String.eqb (name t) caseName) definedTools)
       then [{| tool := caseName; issues := [orphanedCode]; status := ERROR |}]
       else [])
    implementedCases.

(** [validateTools()], given what [extractToolsFromSource] and
    [extractImplementedCases] read from src/index.ts: the results of the two
    loops. Its two console lines are [validateToolsLog]. *)
Definition validateTools (definedTools : list ToolDefinition) (implementedCases : list string)
    : list ValidationResult :=
  map (checkTool definedTools implementedCases) definedTools
  ++ orphans definedTools implementedCases.

Definition say (line : string) : LogEntry := console_log [AStr line].

Definition validateToolsLog (definedTools : list ToolDefinition)
    (implementedCases : list string) : list LogEntry :=
  [ say ("📊 Found " +++ num (length definedTools) +++ " tool definitions");
    say ("📊 Found " +++ num (length implementedCases) +++ " case implementations") ].

Definition withStatus (s : Status) (results : list ValidationResult) : list ValidationResult :=
  filter (fun r => status_eqb (status r) s) results.

Definition statusName (s : Status) : string :=
  match s with
  | VALID => "VALID"
  | WARNING => "WARNING"
  | ERROR => "ERROR"
  end.

Definition statusIcon (s : Status) : string :=
  match s with
  | VALID => "✅"
  | WARNING => "⚠️"
  | ERROR => "❌"
  end.

Fixpoint repeatString (s : string) (n : nat) : string :=
  match n with
  | O => EmptyString
  | S k => s +++ repeatString s k
  end.

(** The lines of [printReport] for the results of one status; nothing when
    there is none. *)
Definition reportGroup (s : Status) (results : list ValidationResult) : list LogEntry :=
  match withStatus s results with
  | [] => []
  | filtered =>
      [say (statusIcon s +++ " " +++ statusName s
            +++ " (" +++ num (length filtered) +++ "):")]
      ++ flat_map (fun r => say ("  • " +++ tool r)
                            :: map (fun issue => say ("    └─ " +++ issue)) (issues r))
                  filtered
      ++ [console_log []]
  end.

(** [results.some(r => r.issues.includes(text))] *)
Definition someIssueIs (text : string) (results : list ValidationResult) : bool :=
  existsb (fun r => arrayIncludes text (issues r)) results.

(** The recommendation lines of [printReport], below the heading. *)
Definition recommendationItems (results : list ValidationResult) : list LogEntry :=
  (if someIssueIs "Duplicate tool definition" results
   then [say "  • Remove duplicate tool definitions"] else [])
  ++ (if someIssueIs "Implementation without tool definition" results
      then [say "  • Remove orphaned implementations or add tool definitions"] else [])
  ++ (if someIssueIs "No implementation found" results
      then [say "  • Add implementations for defined tools"] else [])
  ++ (if someIssueIs "Missing prerequisite documentation" results
      then [say "  • Document tool dependencies in descriptions"] else []).

(** The last block of [printReport]. *)
Definition recommendations (results : list ValidationResult) : list LogEntry :=
  if Nat.ltb 0 (length (withStatus ERROR results))
     || Nat.ltb 0 (length (withStatus WARNING results))
  then [say "🔧 RECOMMENDATIONS:"] ++ recommendationItems results ++ [console_log []]
  else [].

Definition printReport (results : list ValidationResult) : list LogEntry :=
  [ say (str1 newline +++ "🔍 TOOL VALIDATION REPORT");
    say (repeatString "=" 60);
    say ("📊 Summary: " +++ num (length (withStatus VALID results)) +++ " valid, "
         +++ num (length (withStatus WARNING results)) +++ " warnings, "
         +++ num (length (withStatus ERROR results)) +++ " errors" +++ str1 newline) ]
  ++ reportGroup ERROR results
  ++ reportGroup WARNING results
  ++ reportGroup VALID results
  ++ recommendations results.

(** How the process ends: [process.exit(1)], or by returning from [main]. *)
Inductive Exit : Type := ExitFailure | ExitSuccess.

(** [results.some(r => r.status === 'ERROR')] *)
Definition hasErrors (results : list ValidationResult) : bool :=
  existsb (fun r => status_eqb (status r) ERROR) results.

(** [main()], given what the two extraction functions return or throw: the
    console output and the way the process ends. When an extraction throws,
    [validateTools] prints the error and exits at once. *)
Definition main (extracted : Completion (list ToolDefinition * list string))
    : list LogEntry * Exit :=
  let banner :=
    [ say "🚀 INSTANTLY MCP TOOL VALIDATOR";
      say ("Checking tool definitions and implementations..." +++ str1 newline) ] in
  match extracted with
  | Thrown e =>
      (banner ++ [console_error [AStr "❌ Validation failed:"; AStr (message e)]],
       ExitFailure)
  | Returned (definedTools, implementedCases) =>
      let results := validateTools definedTools implementedCases in
      let printed :=
        banner ++ validateToolsLog definedTools implementedCases ++ printReport results in
      if hasErrors results
      then (printed ++ [say "❌ Validation failed with errors. Please fix before proceeding."],
            ExitFailure)
      else (printed ++ [say "✅ Validation completed successfully!"], ExitSuccess)
  end.

(** Two tools and their cases, used to try the script. *)
Definition sampleTools : list ToolDefinition :=
  [ {| name := "list_accounts";
       description := "List all sending accounts in the workspace";
       inputSchema := JObj [] |};
    {| name := "create_campaign";
       description := "Create a campaign";
       inputSchema := JObj [] |} ].

Definition sampleCases : list string := ["list_accounts"; "create_campaign"].

End ToolValidator.

(** ** api/mcp-oauth.ts: the request handed to [authHandler] *)

Module RequestBuild.
Import McpAuth VercelFunction.

(** [Array.isArray(value) ? value[0] : value], as [Headers.set] stores it. *)
Definition forwardedValue (v : HeaderValue) : string :=
  match v with
  | HArr l => optToString (hd_error l)
  | other => headerToString other
  end.


(** A request without a method that has a body. *)
Definition bareRequest : VercelRequest :=
  {| method := None;
     url := Some "/api/mcp";
     headers := [("host", HStr "instantly-mcp.vercel.app")];
     body := Some (JObj [("method", JStr "tools/list")]) |}.

(** The options given to [withMcpAuth]. *)
Record McpAuthOptions : Type := {
  required : bool;
  requiredScopes : list string;
  resourceMetadataPath : string
}.

Definition authOptions : McpAuthOptions :=
  {| required := true;
     requiredScopes := ["read"];
     resourceMetadataPath := "/.well-known/oauth-protected-resource" |}.

(** Headers as Node delivers them, with one array value and one empty one. *)
Definition sampleHeaders : list (string * HeaderValue) :=
  [ ("host", HStr "instantly-mcp.vercel.app");
    ("Authorization", HStr "Bearer inst_key_0123456");
    ("set-cookie", HArr ["a=1"; "b=2"]);
    ("x-empty", HStr EmptyString);
    ("x-absent", HUndefined) ].

End RequestBuild.

(** ** The serverless entry point over a sequence of requests *)

Module ServerlessRuns.
Import VercelFunction VercelAdapter.

Section Runs.

Variable App : Type.

(** The invocations of one entry point [h] for the requests [reqs], one
    after the other in the same process: the responses and the final module
    state. *)
Fixpoint handleAll (h : FunctionState App -> VercelRequest -> VercelResponse * FunctionState App)
    (st : FunctionState App) (reqs : list VercelRequest)
    : list VercelResponse * FunctionState App :=
  match reqs with
  | [] => ([], st)
  | req :: rest =>
      let (response, st1) := h st req in
      let (responses, st2) := handleAll h st1 rest in
      (response :: responses, st2)
  end.

End Runs.

Arguments handleAll {App} h st reqs.

(** The console line that [createServer] writes when an initialization has
    succeeded. *)
Definition isInitialized (entry : LogEntry) : bool :=
  match entry with
  | (ConsoleError, [AStr line]) =>
      String.eqb line "[Vercel] Express app initialized successfully"
  | _ => false
  end.

(** The number of successful initializations the console records. *)
Definition successes (log : list LogEntry) : nat := length (filter isInitialized log).

(** A transport that would expose a new application at every construction. *)
Definition freshConstruct (n : nat) : Completion (option nat) := Returned (Some n).

Definition echoApp (app : nat) (req : VercelRequest) : Completion VercelResponse :=
  Returned {| statusCode := 200; setHeaders := []; sent := SentText (optToString (url req)) |}.

Definition twoRequests : list VercelRequest :=
  [ {| method := Some "GET"; url := Some "/health"; headers := []; body := None |};
    {| method := Some "POST"; url := Some "/mcp"; headers := []; body := Some JNull |} ].

End ServerlessRuns.

(** ** src/oauth-config.ts: reading the discovery documents *)

Module Discovery.
Import OAuthConfig.

(** The value of the property [key] of a JSON object. *)
Definition field (key : string) (doc : json) : option json :=
  match doc with
  | JObj fields =>
      option_map snd (find (fun kv => String.eqb (fst kv) key) fields)
  | _ => None
  end.

Definition requestFor (path : string) : ExpressRequest :=
  {| originalUrl := path; reqHeaders := []; reqBody := None |}.

(** The document with which a route handler of the application answers
    a GET of [path]. *)
Definition document (app : App) (path : string) : option json :=
  option_map snd (dispatch app GET (requestFor path)).

(** Some route handler of the application takes the verb and path. *)
Definition serves (app : App) (v : Verb) (path : string) : bool :=
  match dispatch app v (requestFor path) with
  | Some _ => true
  | None => false
  end.


Definition localEnv : Env := {| NODE_ENV := Some "development"; VERCEL := None |}.
Definition localConfig : Config := {| host := "localhost"; port := 3000 |}.

(** An application with a route of its own on a path that
    [setupOAuthEndpoints] uses too. *)
Definition ownRoute : Route :=
  {| routeVerb := POST;
     routePath := "/oauth/token";
     routeHandler := fun _ => ([], JObj [("error", JStr "unsupported_grant_type")]) |}.

End Discovery.

(** ** The tool validation script: cutting the tools array into objects *)

Module ToolSplitter.

Definition backslash : ascii := "092"%char.
Definition singleQuote : ascii := "039"%char.
Definition backtick : ascii := "096"%char.
Definition openBrace : ascii := "123"%char.
Definition closeBrace : ascii := "125"%char.
Definition comma : ascii := "044"%char.

(** The white space that [trim] removes, as far as it is ASCII: tab, line
    feed, vertical tab, form feed, carriage return and space. *)
Definition isSpace (c : ascii) : bool :=
  let n := nat_of_ascii c in
  (Nat.leb 9 n && Nat.leb n 13) || Nat.eqb n 32.

Fixpoint trimStart (s : string) : string :=
  match s with
  | EmptyString => EmptyString
  | String c rest => if isSpace c then trimStart rest else s
  end.

Fixpoint trimEnd (s : string) : string :=
  match s with
  | EmptyString => EmptyString
  | String c rest =>
      match trimEnd rest with
      | EmptyString => if isSpace c then EmptyString else str1 c
      | kept => String c kept
      end
  end.

(** [s.trim()] *)
Definition trim (s : string) : string := trimEnd (trimStart s).

(** [s.replace(/,$/, '')]: a comma at the very end is removed. *)
Fixpoint stripTrailingComma (s : string) : string :=
  match s with
  | EmptyString => EmptyString
  | String c rest =>
      match rest with
      | EmptyString => if Ascii.eqb c comma then EmptyString else s
      | String _ _ => String c (stripTrailingComma rest)
      end
  end.

Definition isQuote (c : ascii) : bool :=
  Ascii.eqb c dquote || Ascii.eqb c singleQuote || Ascii.eqb c backtick.

(** The variables of the loop of [splitToolObjects]; [stringChar] is [None]
    for the empty string. *)
Record SplitState : Type := {
  objects : list string;
  current : string;
  braceCount : Z;
  inString : bool;
  stringChar : option ascii;
  escaped : bool
}.

Definition initialSplit : SplitState :=
  {| objects := []; current := EmptyString; braceCount := 0;
     inString := false; stringChar := None; escaped := false |}.

(** One pass of the loop body for the character [c]; [last] is
    [i === toolsSection.length - 1]. *)
Definition splitStep (last : bool) (st : SplitState) (c : ascii) : SplitState :=
  if escaped st then
    {| objects := objects st; current := current st +++ str1 c;
       braceCount := braceCount st; inString := inString st;
       stringChar := stringChar st; escaped := false |}
  else if Ascii.eqb c backslash then
    {| objects := objects st; current := current st +++ str1 c;
       braceCount := braceCount st; inString := inString st;
       stringChar := stringChar st; escaped := true |}
  else
    let '(inString1, stringChar1) :=
      if negb (inString st) && isQuote c then (true, Some c)
      else if inString st
              && match stringChar st with
                 | Some q => Ascii.eqb c q
                 | None => false
                 end
           then (false, None)
           else (inString st, stringChar st) in
    let braceCount1 :=
      if negb inString1
      then if Ascii.eqb c openBrace then (braceCount st + 1)%Z
           else if Ascii.eqb c closeBrace then (braceCount st - 1)%Z
           else braceCount st
      else braceCount st in
    let current1 := current st +++ str1 c in
    if negb inString1 && Z.eqb braceCount1 0 && truthy (trim current1)
       && (Ascii.eqb c comma || last)
    then
      let trimmed := trim (stripTrailingComma current1) in
      {| objects := if truthy trimmed && negb (String.eqb trimmed ",")
                    then objects st ++ [trimmed] else objects st;
         current := EmptyString;
         braceCount := braceCount1; inString := inString1;
         stringChar := stringChar1; escaped := false |}
    else
      {| objects := objects st; current := current1;
         braceCount := braceCount1; inString := inString1;
         stringChar := stringChar1; escaped := false |}.

(** The loop over the characters of the text; when [more] is set, the text
    is followed by further characters, so none of its own is the last. *)
Fixpoint splitLoop (more : bool) (st : SplitState) (s : string) : SplitState :=
  match s with
  | EmptyString => st
  | String c rest =>
      splitLoop more
        (splitStep (match rest with
                    | EmptyString => negb more
                    | String _ _ => false
                    end) st c)
        rest
  end.

(** [splitToolObjects(toolsSection)] *)
Definition splitToolObjects (toolsSection : string) : list string :=
  filter (fun obj => Nat.ltb 0 (String.length (trim obj)))
         (objects (splitLoop false initialSplit toolsSection)).

(** The loop between two objects or inside one: [depth] open braces, inside
    a string opened by [quote] if any, after a backslash if [esc]. *)
Definition scanning (found : list string) (text : string) (depth : Z)
    (quote : option ascii) (esc : bool) : SplitState :=
  {| objects := found; current := text; braceCount := depth;
     inString := match quote with Some _ => true | None => false end;
     stringChar := quote; escaped := esc |}.

(** The text [s] runs from inside [depth] open braces (inside a string
    opened by [quote], after a backslash if [esc]) to the brace that closes
    the outermost of them, and ends there. *)
Fixpoint closes (depth : nat) (quote : option ascii) (esc : bool) (s : string) : bool :=
  match s with
  | EmptyString => false
  | String c rest =>
      if esc then closes depth quote false rest
      else if Ascii.eqb c backslash then closes depth quote true rest
      else
        match quote with
        | Some q =>
            if Ascii.eqb c q then closes depth None false rest
            else closes depth quote false rest
        | None =>
            if isQuote c then closes depth (Some c) false rest
            else if Ascii.eqb c openBrace then closes (S depth) None false rest
            else if Ascii.eqb c closeBrace then
              match depth with
              | O => false
              | S O => match rest with EmptyString => true | String _ _ => false end
              | S (S d) => closes (S d) None false rest
              end
            else closes depth None false rest
        end
  end.

(** One object literal: an opening brace, then text with closed strings
    and balanced braces up to the brace that closes the first. *)
Definition isObjectText (s : string) : bool :=
  match s with
  | EmptyString => false
  | String c rest => Ascii.eqb c openBrace && closes 1 None false rest
  end.

Fixpoint allChars (p : ascii -> bool) (s : string) : bool :=
  match s with
  | EmptyString => true
  | String c rest => p c && allChars p rest
  end.

(** Two tool objects as the script meets them in src/index.ts. *)
Definition sampleObjects : list string :=
  [ "{ name: 'list_accounts', description: 'List accounts, all of them', inputSchema: { type: 'object' } }";
    "{ name: 'get_campaign', description: `Get one {campaign}`, inputSchema: {} }" ].

End ToolSplitter.

(** * Properties *)

(** ** Serialisation checks *)

Module JsonChecks.

Example stringify_object_indent2 :
  JSON_stringify (JObj [("a", JNum 1); ("b", JArr [JStr "x"; JNull])]) 2
  = "{" +++ str1 newline
    +++ "  " +++ str1 dquote +++ "a" +++ str1 dquote +++ ": 1," +++ str1 newline
    +++ "  " +++ str1 dquote +++ "b" +++ str1 dquote +++ ": [" +++ str1 newline
    +++ "    " +++ str1 dquote +++ "x" +++ str1 dquote +++ "," +++ str1 newline
    +++ "    null" +++ str1 newline
    +++ "  ]" +++ str1 newline
    +++ "}".
Proof. reflexivity. Qed.

Example stringify_compact :
  JSON_stringify (JObj [("a", JNum (-12)); ("b", JArr [])]) 0
  = "{" +++ str1 dquote +++ "a" +++ str1 dquote +++ ":-12,"
    +++ str1 dquote +++ "b" +++ str1 dquote +++ ":[]}".
Proof. reflexivity. Qed.

Example quote_escapes :
  quoteJSONString ("a" +++ str1 dquote +++ "\" +++ str1 newline)
  = str1 dquote +++ "a\" +++ str1 dquote +++ "\\\n" +++ str1 dquote.
Proof. reflexivity. Qed.

End JsonChecks.

(** ** Token verification and the tool callback *)

Module AuthProofs.
Import McpAuth.

Lemma long_is_truthy (s : string) : 10 <= String.length s -> truthy s = true.
Proof. destruct s; simpl; [lia | reflexivity]. Qed.

(** A token shorter than ten characters is refused, whatever the request. *)
Lemma verifyTokenWith_short (m1 m2 : string) (req : WebRequest) (tok : string) :
  String.length tok < 10 -> fst (verifyTokenWith m1 m2 req (Some tok)) = None.
Proof.
  intros Hlen. unfold verifyTokenWith.
  destruct (truthy tok); simpl; [| reflexivity].
  apply Nat.ltb_lt in Hlen. rewrite Hlen. reflexivity.
Qed.

(** A token of ten characters or more is accepted as it is. *)
Lemma verifyTokenWith_long (m1 m2 : string) (req : WebRequest) (tok : string) :
  10 <= String.length tok ->
  verifyTokenWith m1 m2 req (Some tok)
  = (Some {| token := tok;
             scopes := ["read"; "write"];
             clientId := "instantly-user";
             extra := Some {| apiKey := Some tok |} |},
     [console_error [AStr m2]]).
Proof.
  intros Hlen. unfold verifyTokenWith.
  rewrite (long_is_truthy tok Hlen). simpl.
  destruct (Nat.ltb_spec (String.length tok) 10) as [Hlt | _]; [lia | reflexivity].
Qed.

(** Whatever is accepted is a bearer token of ten characters or more. *)
Lemma verifyTokenWith_accepts (m1 m2 : string) (req : WebRequest)
    (bearer : option string) (info : AuthInfo) :
  fst (verifyTokenWith m1 m2 req bearer) = Some info ->
  exists tok, bearer = Some tok /\ 10 <= String.length tok.
Proof.
  destruct bearer as [tok |]; [| discriminate].
  intros Hacc. exists tok. split; [reflexivity |].
  destruct (Nat.lt_ge_cases (String.length tok) 10) as [Hlt | Hge]; [| exact Hge].
  rewrite (verifyTokenWith_short m1 m2 req tok Hlt) in Hacc. discriminate.
Qed.

(** C8. [verifyToken] (both source files are instances of
    [verifyTokenWith]) returns [undefined] for an absent bearer token and
    for every token of fewer than ten characters, and for every token of
    ten characters or more it returns the [AuthInfo] with scopes
    [read, write] built from the token alone: the request is not consulted
    and nothing else is. *)
Theorem verifyToken_rejects_exactly_short_or_missing :
  forall (msgShort msgOk : string) (req : WebRequest),
    fst (verifyTokenWith msgShort msgOk req None) = None
    /\ (forall tok, String.length tok < 10 ->
          fst (verifyTokenWith msgShort msgOk req (Some tok)) = None)
    /\ (forall tok, 10 <= String.length tok ->
          fst (verifyTokenWith msgShort msgOk req (Some tok))
          = Some {| token := tok;
                    scopes := ["read"; "write"];
                    clientId := "instantly-user";
                    extra := Some {| apiKey := Some tok |} |})
    /\ (forall req' bearer,
          verifyTokenWith msgShort msgOk req' bearer
          = verifyTokenWith msgShort msgOk req bearer).
Proof.
  intros m1 m2 req. repeat split.
  - intros tok Hlen. apply verifyTokenWith_short. exact Hlen.
  - intros tok Hlen. rewrite verifyTokenWith_long by exact Hlen. reflexivity.
Qed.

Example verifyToken_nine_characters :
  fst (verifyToken {| reqUrl := "https://h/api/mcp"; reqMethod := "POST";
                      reqHeaders := []; reqBody := None |} (Some "123456789")) = None.
Proof. reflexivity. Qed.

Example verifyToken_route_ten_characters :
  option_map token
    (fst (verifyToken_route {| reqUrl := "https://h/api/mcp"; reqMethod := "POST";
                               reqHeaders := []; reqBody := None |} (Some "1234567890")))
  = Some "1234567890".
Proof. reflexivity. Qed.

Section Callback.

Variable executeToolDirectly : string -> json -> string -> Completion json.

(** What [verifyToken] accepts is stored unchanged, as the token and as
    the API key. *)
Lemma accepted_info (m1 m2 : string) (req : WebRequest)
    (bearer : option string) (info : AuthInfo) :
  fst (verifyTokenWith m1 m2 req bearer) = Some info ->
  bearer = Some (token info)
  /\ extra info = Some {| apiKey := Some (token info) |}
  /\ 10 <= String.length (token info).
Proof.
  intros Hacc.
  destruct (verifyTokenWith_accepts m1 m2 req bearer info Hacc) as [tok [-> Hlen]].
  rewrite verifyTokenWith_long in Hacc by exact Hlen.
  cbn [fst] in Hacc. injection Hacc as <-. cbn [token extra].
  repeat split. exact Hlen.
Qed.

(** A key that is present reaches the executor unchanged, once. *)
Lemma callback_calls_with_key (toolName : string) (args : json)
    (x : option HandlerExtra) (k : string) :
  readApiKey x = Some k -> truthy k = true ->
  snd (toolCallback executeToolDirectly toolName args x)
  = [{| callTool := toolName; callArgs := args; callApiKey := k |}].
Proof.
  intros Hkey Htruthy. unfold toolCallback, callbackTry.
  rewrite Hkey. simpl. rewrite Htruthy. simpl.
  destruct (executeToolDirectly toolName args k); reflexivity.
Qed.

(** Had the callback been given the [AuthInfo] under the property it
    reads, it would invoke the executor once, with the accepted token as
    its API key. *)
Lemma key_under_auth_is_forwarded (m1 m2 : string) (req : WebRequest)
    (bearer : option string) (info : AuthInfo) (toolName : string) (args : json) :
  fst (verifyTokenWith m1 m2 req bearer) = Some info ->
  snd (toolCallback executeToolDirectly toolName args
         (Some {| auth := Some info; authInfo := None |}))
  = [{| callTool := toolName; callArgs := args; callApiKey := token info |}].
Proof.
  intros Hacc.
  destruct (accepted_info m1 m2 req bearer info Hacc) as [_ [Hextra Hlen]].
  apply callback_calls_with_key.
  - cbn [readApiKey auth]. rewrite Hextra. reflexivity.
  - apply long_is_truthy. exact Hlen.
Qed.

(** C3 (the code departs from the claim). For every bearer token that
    [verifyToken] accepts, the [AuthInfo] holds that token unchanged, as
    [token] and as [extra.apiKey]. The tool callback, called by the MCP SDK
    with that [AuthInfo] under [extra.authInfo], reads [extra.auth] and
    finds no key: whatever the executor would do, the callback returns the
    "API key required" error payload and does not invoke it, so the
    accepted token is not forwarded. *)
Theorem accepted_bearer_token_never_reaches_the_executor :
  forall (msgShort msgOk : string) (req : WebRequest) (bearer : option string)
         (info : AuthInfo) (toolName : string) (args : json),
    fst (verifyTokenWith msgShort msgOk req bearer) = Some info ->
    bearer = Some (token info)
    /\ extra info = Some {| apiKey := Some (token info) |}
    /\ readApiKey (Some (sdkExtra (Some info))) = None
    /\ toolCallback executeToolDirectly toolName args (Some (sdkExtra (Some info)))
       = ({| content := [textItem ("Error: " +++ apiKeyRequired)]; isError := Some true |},
          []).
Proof.
  intros m1 m2 req bearer info toolName args Hacc.
  destruct (accepted_info m1 m2 req bearer info Hacc) as [Hbearer [Hextra _]].
  repeat split; [exact Hbearer | exact Hextra].
Qed.

(** Without a usable key the [try] block throws before the executor is
    reached. *)
Lemma callbackTry_without_key (toolName : string) (args : json) (x : option HandlerExtra) :
  apiKeyMissing (readApiKey x) = true ->
  callbackTry executeToolDirectly toolName args x = (Thrown (newError apiKeyRequired), []).
Proof.
  unfold callbackTry. destruct (readApiKey x) as [k |]; [| reflexivity].
  intros Hmissing. rewrite Hmissing. reflexivity.
Qed.

(** Whatever the [try] block throws becomes an error payload. *)
Lemma toolCallback_catches (toolName : string) (args : json) (x : option HandlerExtra)
    (e : JsError) (calls : list Call) :
  callbackTry executeToolDirectly toolName args x = (Thrown e, calls) ->
  toolCallback executeToolDirectly toolName args x = (errorPayload e, calls).
Proof. intros Htry. unfold toolCallback. rewrite Htry. reflexivity. Qed.

Lemma errorPayload_isError (e : JsError) : isErrorPayload (errorPayload e).
Proof. split; [reflexivity | exists (message e); reflexivity]. Qed.

(** C4. Every invocation of the tool callback returns a success payload
    or an error payload. Whenever its [try] block throws an error [e], be
    it the missing-key error or one thrown by the executor, the payload has
    [isError = true] and the text "Error: " followed by the message of [e].
    When the API key is absent the error is the "API key required" one and
    the executor is not invoked. *)
Theorem toolCallback_success_or_error_payload :
  forall (toolName : string) (args : json) (x : option HandlerExtra),
    (isSuccessPayload (fst (toolCallback executeToolDirectly toolName args x))
     \/ isErrorPayload (fst (toolCallback executeToolDirectly toolName args x)))
    /\ (forall e calls,
          callbackTry executeToolDirectly toolName args x = (Thrown e, calls) ->
          fst (toolCallback executeToolDirectly toolName args x)
          = {| content := [textItem ("Error: " +++ message e)]; isError := Some true |})
    /\ (forall k e,
          readApiKey x = Some k -> truthy k = true ->
          executeToolDirectly toolName args k = Thrown e ->
          fst (toolCallback executeToolDirectly toolName args x) = errorPayload e)
    /\ (apiKeyMissing (readApiKey x) = true ->
          toolCallback executeToolDirectly toolName args x
          = (errorPayload (newError apiKeyRequired), [])).
Proof.
  intros toolName args x. repeat split.
  - unfold toolCallback.
    destruct (callbackTry executeToolDirectly toolName args x) as [[p | e] calls] eqn:Htry.
    + left. unfold callbackTry in Htry.
      destruct (readApiKey x) as [k |]; [| discriminate].
      destruct (apiKeyMissing (Some k)); [discriminate |].
      destruct (executeToolDirectly toolName args k) as [r | e]; [| discriminate].
      injection Htry as <- _. simpl. split; [reflexivity | eexists; reflexivity].
    + right. apply errorPayload_isError.
  - intros e calls Htry. rewrite (toolCallback_catches _ _ _ _ _ Htry). reflexivity.
  - intros k e Hkey Htruthy Hthrow. unfold toolCallback, callbackTry.
    rewrite Hkey. simpl. rewrite Htruthy. simpl. rewrite Hthrow. reflexivity.
  - intros Hmissing. unfold toolCallback.
    rewrite (callbackTry_without_key _ _ _ Hmissing). reflexivity.
Qed.

End Callback.

(** C3 at a concrete request: the route's [verifyToken] accepts a
    sixteen-character key, and an executor that would answer every call is
    not invoked. *)
Lemma accepted_bearer_token_witness :
  fst (verifyToken_route sampleRequest (Some "inst_key_0123456")) = Some sampleInfo
  /\ toolCallback (fun _ _ _ => Returned JNull) "list_accounts" JNull
       (Some (sdkExtra (Some sampleInfo)))
     = ({| content := [textItem ("Error: " +++ apiKeyRequired)]; isError := Some true |},
        []).
Proof.
  split; [reflexivity |].
  exact (proj2 (proj2 (proj2
    (accepted_bearer_token_never_reaches_the_executor (fun _ _ _ => Returned JNull)
       "[OAuth] Bearer token too short to be valid API key"
       "[OAuth] Bearer token validated successfully"
       sampleRequest (Some "inst_key_0123456") sampleInfo
       "list_accounts" JNull eq_refl)))).
Defined.

End AuthProofs.

(** ** What the exported Vercel function writes to the console *)

Module LoggingProofs.
Import McpAuth VercelFunction.

Lemma prefix_refl (s : string) : String.prefix s s = true.
Proof.
  induction s as [| c s IH]; simpl; [reflexivity |].
  destruct (ascii_dec c c) as [_ | Hne]; [exact IH | contradiction].
Qed.

Lemma contains_refl (s : string) : contains s s = true.
Proof.
  destruct s as [| c s]; [reflexivity |].
  cbn [contains]. rewrite prefix_refl. reflexivity.
Qed.

Lemma contains_append (needle pre : string) : contains needle (pre +++ needle) = true.
Proof.
  induction pre as [| c pre IH].
  - apply contains_refl.
  - change (String c pre +++ needle) with (String c (pre +++ needle)).
    cbn [contains]. rewrite IH. apply orb_true_r.
Qed.

Lemma getHeader_withBearer (key : string) (req : VercelRequest) :
  getHeader "authorization" (headers (withBearer key req)) = HStr ("Bearer " +++ key).
Proof. reflexivity. Qed.

Section Logs.

Variable platform : Platform.
Variable authHandler : WebRequest -> Completion WebResponse.

Lemma handler_log_preamble (req : VercelRequest) :
  exists rest, snd (handler platform authHandler req) = preamble req ++ rest.
Proof.
  unfold handler.
  destruct (newRequest platform _ _ _ _) as [request | e];
    [destruct (authHandler request) as [response | e] |];
    simpl; eexists; reflexivity.
Qed.

(** The method, the path and, when [authHandler] answers, the response
    status are on the console. *)
Lemma handler_logs_method_path_status (req : VercelRequest) (request : WebRequest)
    (response : WebResponse) :
  newRequest platform (requestUrl req) (methodOrGet req)
             (copyHeaders (headers req) []) (requestBody req) = Returned request ->
  authHandler request = Returned response ->
  In (console_log [AStr "[Vercel] Incoming request:"; optArg (method req); optArg (url req)])
     (snd (handler platform authHandler req))
  /\ In (console_log [AStr "[Vercel] Response status:"; ANum (status response)])
        (snd (handler platform authHandler req)).
Proof.
  intros Hreq Hresp. unfold handler. rewrite Hreq, Hresp. simpl. split.
  - left. reflexivity.
  - right. right. right. left. reflexivity.
Qed.

(** C1 (the code departs from the claim). For every request that
    presents the API key [key] as its bearer token, the console output of
    [handler] has the call
    [console.log('[Vercel] Authorization header:', 'Bearer ' + key)], so the
    key itself is shown in the log. *)
Theorem handler_logs_the_api_key :
  forall (req : VercelRequest) (key : string),
    In (console_log [AStr "[Vercel] Authorization header:"; AStr ("Bearer " +++ key)])
       (snd (handler platform authHandler (withBearer key req)))
    /\ logShows key (snd (handler platform authHandler (withBearer key req))) = true.
Proof.
  intros req key.
  destruct (handler_log_preamble (withBearer key req)) as [rest Hlog].
  rewrite Hlog. split.
  - apply in_or_app. left. unfold preamble.
    rewrite getHeader_withBearer.
    right. right. left.
    unfold orElse. simpl. reflexivity.
  - unfold logShows. rewrite existsb_app. apply orb_true_iff. left.
    unfold preamble. rewrite getHeader_withBearer.
    cbn [existsb snd console_log]. 
    replace (argText (headerArg (orElse (HStr ("Bearer " +++ key))
               (getHeader "Authorization" (headers (withBearer key req))))))
      with ("Bearer " +++ key) by reflexivity.
    rewrite (contains_append key "Bearer ").
    rewrite !orb_true_r. reflexivity.
Qed.

(** Two requests that differ only in the key are told apart by the log. *)
Lemma handler_log_determines_key (req : VercelRequest) (k1 k2 : string) :
  snd (handler platform authHandler (withBearer k1 req))
  = snd (handler platform authHandler (withBearer k2 req)) ->
  k1 = k2.
Proof.
  intros Heq.
  destruct (handler_log_preamble (withBearer k1 req)) as [r1 H1].
  destruct (handler_log_preamble (withBearer k2 req)) as [r2 H2].
  rewrite H1, H2 in Heq.
  apply (f_equal (fun log => nth_error log 2)) in Heq.
  unfold preamble in Heq. rewrite !getHeader_withBearer in Heq.
  cbn in Heq. unfold console_log in Heq. congruence.
Qed.

(** The other revision writes nothing when [authHandler] answers. *)
Lemma handler_previous_silent (req : VercelRequest) (request : WebRequest)
    (response : WebResponse) :
  newRequest platform (requestUrl req) (methodOrGet req)
             (map (fun kv => (toLowerCase (fst kv), headerToString (snd kv))) (headers req))
             (requestBody req) = Returned request ->
  authHandler request = Returned response ->
  snd (handler_previous platform authHandler req) = [].
Proof.
  intros Hreq Hresp. unfold handler_previous. rewrite Hreq, Hresp. reflexivity.
Qed.

End Logs.

Example handler_log_of_a_tool_call :
  snd (handler samplePlatform okHandler (withBearer "inst_key_0123456" toolCall))
  = [ console_log [AStr "[Vercel] Incoming request:"; AStr "POST"; AStr "/api/mcp"];
      console_log [AStr "[Vercel] Headers:";
                   AStr ("{" +++ str1 newline
                         +++ "  " +++ str1 dquote +++ "authorization" +++ str1 dquote +++ ": "
                         +++ str1 dquote +++ "Bearer inst_key_0123456" +++ str1 dquote
                         +++ "," +++ str1 newline
                         +++ "  " +++ str1 dquote +++ "host" +++ str1 dquote +++ ": "
                         +++ str1 dquote +++ "instantly-mcp.vercel.app" +++ str1 dquote
                         +++ str1 newline +++ "}")];
      console_log [AStr "[Vercel] Authorization header:"; AStr "Bearer inst_key_0123456"];
      console_log [AStr "[Vercel] Response status:"; ANum 200] ].
Proof. reflexivity. Qed.

End LoggingProofs.

(** ** The introspection endpoint *)

Module OAuthProofs.
Import OAuthConfig.

(** A route added at the end answers exactly the requests that no earlier
    route answers. *)
Lemma dispatch_last (app : App) (r : Route) (v : Verb) (req : ExpressRequest) :
  dispatch (app ++ [r]) v req
  = match dispatch app v req with
    | Some answer => Some answer
    | None =>
        if handlesMethod (routeVerb r) v && matchPath (routePath r) (reqPath req)
        then Some (routeHandler r req) else None
    end.
Proof.
  induction app as [| r0 app IH]; cbn [dispatch List.app].
  - reflexivity.
  - destruct (handlesMethod (routeVerb r0) v && matchPath (routePath r0) (reqPath req));
      [reflexivity | exact IH].
Qed.

Lemma dispatch_app_get_POST (app : App) (path : string) (h : RouteHandler)
    (req : ExpressRequest) :
  dispatch (app_get app path h) POST req = dispatch app POST req.
Proof.
  unfold app_get. rewrite dispatch_last. cbn [routeVerb handlesMethod verb_eqb orb andb].
  destruct (dispatch app POST req); reflexivity.
Qed.

Lemma dispatch_app_post_other (app : App) (path : string) (h : RouteHandler)
    (req : ExpressRequest) :
  matchPath path (reqPath req) = false ->
  dispatch (app_post app path h) POST req = dispatch app POST req.
Proof.
  intros Hpath. unfold app_post. rewrite dispatch_last.
  cbn [routeVerb routePath]. rewrite Hpath, andb_false_r.
  destruct (dispatch app POST req); reflexivity.
Qed.

(** C10. On an application in which no earlier route answers
    POST /oauth/introspect, every such request, whatever its headers and
    body, is answered by [setupOAuthEndpoints]'s route with the constant
    object [{active: true, scope: "read write", token_type: "Bearer"}]. *)
Theorem introspect_reports_every_token_active :
  forall (env : Env) (config : Config) (app : App)
         (hs : list (string * string)) (b : option json),
    dispatch app POST (introspectRequest hs b) = None ->
    dispatch (setupOAuthEndpoints env app config) POST (introspectRequest hs b)
    = Some ([console_error [AStr "[HTTP] 🔍 OAuth token introspection"]],
            JObj [("active", JBool true);
                  ("scope", JStr "read write");
                  ("token_type", JStr "Bearer")]).
Proof.
  intros env config app hs b Hfree. unfold setupOAuthEndpoints.
  unfold app_post at 1. rewrite dispatch_last.
  rewrite dispatch_app_get_POST.
  rewrite dispatch_app_post_other by reflexivity.
  rewrite !dispatch_app_get_POST. rewrite Hfree. reflexivity.
Qed.

(** C10 on the fresh application, for a request naming some token. *)
Lemma introspect_witness :
  dispatch (setupOAuthEndpoints {| NODE_ENV := None; VERCEL := Some "1" |} []
              {| host := "0.0.0.0"; port := 3000 |})
           POST (introspectRequest [] (Some (JObj [("token", JStr "revoked")])))
  = Some ([console_error [AStr "[HTTP] 🔍 OAuth token introspection"]], activeToken).
Proof.
  exact (introspect_reports_every_token_active
           {| NODE_ENV := None; VERCEL := Some "1" |}
           {| host := "0.0.0.0"; port := 3000 |}
           [] [] (Some (JObj [("token", JStr "revoked")])) eq_refl).
Defined.

Example base_url_local :
  getBaseUrl {| NODE_ENV := Some "development"; VERCEL := None |}
             {| host := "localhost"; port := 3000 |}
  = "http://localhost:3000".
Proof. reflexivity. Qed.

End OAuthProofs.

(** ** The cached server instance *)

Module AdapterProofs.
Import VercelFunction VercelAdapter.

Section Singleton.

Variable App : Type.
Variable construct : nat -> Completion (option App).
Variable runApp : App -> VercelRequest -> Completion VercelResponse.

(** With an application cached, [createServer] returns it and changes
    nothing. *)
Lemma createServer_cached (st : AdapterState App) (app : App) :
  cachedApp st = Some app -> createServer construct st = (Returned app, st).
Proof. intros Hc. unfold VercelAdapter.createServer. rewrite Hc. reflexivity. Qed.

(** A call that returns leaves its result in the cache. *)
Lemma createServer_returns_cached (st st1 : AdapterState App) (app : App) :
  createServer construct st = (Returned app, st1) -> cachedApp st1 = Some app.
Proof.
  unfold VercelAdapter.createServer.
  destruct (cachedApp st) as [cached |] eqn:Hc.
  - intros Heq. injection Heq as <- <-. exact Hc.
  - destruct (construct (initializations st)) as [[built |] | e];
      intros Heq; try discriminate.
    injection Heq as <- <-. reflexivity.
Qed.

Lemma createServerTimes_cached (n : nat) (st : AdapterState App) (app : App) :
  cachedApp st = Some app ->
  createServerTimes construct n st = (repeat (Returned app) n, st).
Proof.
  intros Hc. induction n as [| n IH]; simpl; [reflexivity |].
  rewrite (createServer_cached st app Hc), IH. reflexivity.
Qed.

(** Once the entry point holds an instance, an invocation neither calls
    [createServer] nor replaces the instance. *)
Lemma handler_keeps_instance (fs : FunctionState App) (app : App) (req : VercelRequest) :
  serverInstance fs = Some app ->
  handlerTry construct runApp fs req = (runApp app req, fs)
  /\ serverInstance (snd (handler construct runApp fs req)) = Some app
  /\ adapter (snd (handler construct runApp fs req)) = adapter fs.
Proof.
  intros Hs. unfold VercelAdapter.handler, VercelAdapter.handlerTry. rewrite Hs.
  split; [reflexivity |].
  destruct (runApp app req); simpl; split; (reflexivity || exact Hs).
Qed.

(** A call that throws was an initialization, and leaves the cache empty. *)
Lemma createServer_throws_uncached (st st1 : AdapterState App) (e : JsError) :
  createServer construct st = (Thrown e, st1) ->
  cachedApp st1 = None /\ initializations st1 = S (initializations st).
Proof.
  unfold VercelAdapter.createServer.
  destruct (cachedApp st) as [cached |]; [discriminate |].
  destruct (construct (initializations st)) as [[built |] | e0];
    intros Heq; try discriminate; injection Heq as _ <-; split; reflexivity.
Qed.

(** C9, as the code has it. When a call of [createServer] completes its
    initialization and returns the application [app], that application is
    cached, and every later call returns the same [app] and leaves the
    adapter state (the cache, the number of initializations, the console)
    as it is; the serverless entry point that obtained its instance from
    that call hands every later request to the same [app] and does not
    touch the adapter again. A call that throws caches nothing: it was an
    initialization, and the next call initializes again. *)
Theorem createServer_caches_after_successful_initialization :
  forall st : AdapterState App,
    (forall (app : App) (st1 : AdapterState App),
       createServer construct st = (Returned app, st1) ->
       cachedApp st1 = Some app
       /\ (forall n, createServerTimes construct n st1 = (repeat (Returned app) n, st1))
       /\ (forall (fs : FunctionState App) (req : VercelRequest),
             serverInstance fs = None ->
             adapter fs = st ->
             serverInstance (snd (handler construct runApp fs req)) = Some app
             /\ adapter (snd (handler construct runApp fs req)) = st1
             /\ forall req2,
                  handlerTry construct runApp (snd (handler construct runApp fs req)) req2
                  = (runApp app req2, snd (handler construct runApp fs req))))
    /\ (forall (e : JsError) (st1 : AdapterState App),
          createServer construct st = (Thrown e, st1) ->
          cachedApp st1 = None /\ initializations st1 = S (initializations st)).
Proof.
  intros st. split.
  - intros app st1 Hcall.
    pose proof (createServer_returns_cached st st1 app Hcall) as Hcached.
    split; [exact Hcached |]. split.
    + intros n. apply createServerTimes_cached. exact Hcached.
    + intros fs req Hnone Had.
      assert (Hfirst : serverInstance (snd (handler construct runApp fs req)) = Some app
                       /\ adapter (snd (handler construct runApp fs req)) = st1).
      { unfold VercelAdapter.handler, VercelAdapter.handlerTry.
        rewrite Hnone, Had, Hcall.
        destruct (runApp app req); simpl; split; reflexivity. }
      destruct Hfirst as [Hinst Hadapter].
      repeat split; [exact Hinst | exact Hadapter |].
      intros req2.
      apply (handler_keeps_instance (snd (handler construct runApp fs req)) app req2 Hinst).
  - intros e st1 Hcall. apply (createServer_throws_uncached st st1 e Hcall).
Qed.

End Singleton.

(** C9 as stated fails when the first initialization does not complete:
    the first call throws and caches nothing, and the second call runs the
    initialization again. *)
Lemma createServer_retries_after_failed_initialization :
  createServer flakyConstruct initialAdapter
  = (Thrown (newError "Failed to create Express app"), afterFailedStart)
  /\ cachedApp afterFailedStart = None
  /\ fst (createServer flakyConstruct afterFailedStart) = Returned 7
  /\ initializations (snd (createServer flakyConstruct afterFailedStart)) = 2.
Proof. repeat split. Qed.

(** The amended C9 on a transport that works: three later calls. *)
Lemma createServer_caches_witness :
  fst (createServerTimes steadyConstruct 3
         (snd (createServer steadyConstruct initialAdapter)))
  = [Returned 7; Returned 7; Returned 7].
Proof.
  pose proof (proj1 (createServer_caches_after_successful_initialization nat steadyConstruct
                       (fun _ _ => Thrown (newError "unused")) initialAdapter)
                7 (snd (createServer steadyConstruct initialAdapter)) eq_refl)
    as [_ [Hlater _]].
  rewrite (Hlater 3). reflexivity.
Defined.

End AdapterProofs.

(** ** The pagination engine *)

Module PaginationProofs.
Import Pagination.

(** *** One iteration of the loop *)

Section Steps.

Context {T Cursor U : Type}.
Variable send : U -> string -> option Cursor -> nat -> Reply T Cursor * U.
Variable endpoint : string.
Variables pageSize maxPages maxItems maxBackoff : nat.

Lemma requestPage_ok (u u1 : U) (c : option Cursor) (page : Page T Cursor) :
  send u endpoint c pageSize = (Ok page, u1) -> requestPage send endpoint pageSize maxBackoff u c = (Ok page, u1, []).
Proof. intros Hsend. unfold requestPage. rewrite Hsend. reflexivity. Qed.

Lemma fetchLoop_failed (s : LoopState T Cursor U) (e : RequestError) (u1 : U)
    (waits : list nat) :
  requestPage send endpoint pageSize maxBackoff (ustate s) (cursor s) = (Failed e, u1, waits) ->
  fetchLoop send endpoint pageSize maxPages maxItems maxBackoff s
  = finish (acc s) UpstreamError (Some e) (S (iter s))
                  (reported s) (paused s ++ waits) u1.
Proof.
  intros Hreq. rewrite fetchLoop_equation_1.
  rewrite Hreq. reflexivity.
Qed.

Lemma fetchLoop_exhausted (s : LoopState T Cursor U) (page : Page T Cursor) (u1 : U)
    (waits : list nat) :
  requestPage send endpoint pageSize maxBackoff (ustate s) (cursor s) = (Ok page, u1, waits) ->
  nextCursor page = None ->
  fetchLoop send endpoint pageSize maxPages maxItems maxBackoff s
  = finish (acc s ++ pageItems page) Exhausted None (S (iter s))
                  (reported s ++ [length (acc s ++ pageItems page)])
                  (paused s ++ waits) u1.
Proof.
  intros Hreq Hnext. rewrite fetchLoop_equation_1.
  rewrite Hreq. simpl. rewrite Hnext. reflexivity.
Qed.

Lemma fetchLoop_caller_limit (s : LoopState T Cursor U) (page : Page T Cursor)
    (next : Cursor) (u1 : U) (waits : list nat) :
  requestPage send endpoint pageSize maxBackoff (ustate s) (cursor s) = (Ok page, u1, waits) ->
  nextCursor page = Some next ->
  maxItems <= length (acc s ++ pageItems page) ->
  fetchLoop send endpoint pageSize maxPages maxItems maxBackoff s
  = finish (acc s ++ pageItems page) CallerLimitReached None (S (iter s))
                  (reported s ++ [length (acc s ++ pageItems page)])
                  (paused s ++ waits) u1.
Proof.
  intros Hreq Hnext Hfull. rewrite fetchLoop_equation_1.
  rewrite Hreq. simpl. rewrite Hnext. simpl.
  apply Nat.leb_le in Hfull. rewrite Hfull. reflexivity.
Qed.

Lemma fetchLoop_safety_limit (s : LoopState T Cursor U) (page : Page T Cursor)
    (next : Cursor) (u1 : U) (waits : list nat) :
  requestPage send endpoint pageSize maxBackoff (ustate s) (cursor s) = (Ok page, u1, waits) ->
  nextCursor page = Some next ->
  length (acc s ++ pageItems page) < maxItems ->
  maxPages <= S (iter s) ->
  fetchLoop send endpoint pageSize maxPages maxItems maxBackoff s
  = finish (acc s ++ pageItems page) SafetyLimitReached None (S (iter s))
                  (reported s ++ [length (acc s ++ pageItems page)])
                  (paused s ++ waits) u1.
Proof.
  intros Hreq Hnext Hroom Hpages. rewrite fetchLoop_equation_1.
  rewrite Hreq. simpl. rewrite Hnext. simpl.
  destruct (Nat.leb_spec maxItems (length (acc s ++ pageItems page))) as [Hle | _]; [lia |].
  simpl. destruct (le_lt_dec maxPages (S (iter s))) as [Hge | Hlt]; [reflexivity | lia].
Qed.

Lemma fetchLoop_continue (s : LoopState T Cursor U) (page : Page T Cursor)
    (next : Cursor) (u1 : U) (waits : list nat) :
  requestPage send endpoint pageSize maxBackoff (ustate s) (cursor s) = (Ok page, u1, waits) ->
  nextCursor page = Some next ->
  length (acc s ++ pageItems page) < maxItems ->
  S (iter s) < maxPages ->
  fetchLoop send endpoint pageSize maxPages maxItems maxBackoff s
  = fetchLoop send endpoint pageSize maxPages maxItems maxBackoff (advance s page next u1 waits).
Proof.
  intros Hreq Hnext Hroom Hpages. rewrite fetchLoop_equation_1.
  rewrite Hreq. simpl. rewrite Hnext. simpl.
  destruct (Nat.leb_spec maxItems (length (acc s ++ pageItems page))) as [Hle | _]; [lia |].
  simpl. destruct (le_lt_dec maxPages (S (iter s))) as [Hge | Hlt]; [lia | reflexivity].
Qed.

(** Whatever the upstream does, the loop stops within the safety ceiling:
    it never starts an iteration beyond [maxPages], the first one apart. *)
Lemma fetchLoop_iterations_bounded (k : nat) :
  forall s : LoopState T Cursor U,
    maxPages - iter s = k ->
    iterations (fetchLoop send endpoint pageSize maxPages maxItems maxBackoff s)
    <= Nat.max (S (iter s)) maxPages.
Proof.
  induction k as [k IH] using lt_wf_ind. intros s Hk.
  destruct (requestPage send endpoint pageSize maxBackoff (ustate s) (cursor s))
    as [[[page | e] u1] waits] eqn:Hreq.
  - destruct (nextCursor page) as [next |] eqn:Hnext.
    + destruct (Nat.lt_ge_cases (length (acc s ++ pageItems page)) maxItems)
        as [Hroom | Hfull].
      * destruct (Nat.lt_ge_cases (S (iter s)) maxPages) as [Hpages | Hceiling].
        -- rewrite (fetchLoop_continue s page next u1 waits Hreq Hnext Hroom Hpages).
           assert (Hlt : maxPages - S (iter s) < k) by lia.
           pose proof (IH _ Hlt (advance s page next u1 waits) eq_refl) as Hbound.
           cbn [advance iter] in Hbound. lia.
        -- rewrite (fetchLoop_safety_limit s page next u1 waits Hreq Hnext Hroom Hceiling).
           cbn [finish iterations]. lia.
      * rewrite (fetchLoop_caller_limit s page next u1 waits Hreq Hnext Hfull).
        cbn [finish iterations]. lia.
    + rewrite (fetchLoop_exhausted s page u1 waits Hreq Hnext).
      cbn [finish iterations]. lia.
  - rewrite (fetchLoop_failed s e u1 waits Hreq).
    cbn [finish iterations]. lia.
Qed.

(** [fetchAll] always returns, after at most [maxPages] iterations (one
    when [maxPages] is 0). *)
Lemma fetchAll_iterations_bounded (u : U) :
  iterations (fetchAll send endpoint pageSize maxPages maxItems maxBackoff u)
  <= Nat.max 1 maxPages.
Proof.
  unfold fetchAll.
  apply (fetchLoop_iterations_bounded (maxPages - 0)
           {| cursor := None; acc := []; iter := 0;
              reported := []; paused := []; ustate := u |}).
  reflexivity.
Qed.

End Steps.

(** *** Exhaustion: the upstream holding a list in pages *)

Section Paged.

Context {T : Type}.
Variable l : list T.
Variable endpoint : string.
Variables P maxPages maxItems maxBackoff : nat.

Hypothesis P_positive : 0 < P.

(** From the position [position (cursor s)] on, the loop gathers the rest
    of [l] and stops exhausted, provided the rest fits in the pages that
    remain and the whole stays within [maxItems]. *)
Lemma paged_loop_gathers_rest (k : nat) :
  forall s : LoopState T nat unit,
    maxPages - iter s = k ->
    length l - position (cursor s) <= Nat.max 1 k * P ->
    length (acc s) + (length l - position (cursor s)) <= maxItems ->
    let out := fetchLoop (pagedUpstream l) endpoint P maxPages maxItems maxBackoff s in
    items (result out) = acc s ++ skipn (position (cursor s)) l
    /\ stoppedReason (result out) = Exhausted
    /\ error out = None.
Proof.
  induction k as [k IH] using lt_wf_ind.
  intros s Hk Hfit Hroom. cbv zeta.
  set (off := position (cursor s)) in *.
  assert (Hsend : pagedUpstream l (ustate s) endpoint (cursor s) P
                  = (Ok {| pageItems := firstn P (skipn off l);
                           nextCursor := if Nat.ltb (off + P) (length l)
                                         then Some (off + P) else None |},
                     ustate s)) by reflexivity.
  destruct (Nat.ltb (off + P) (length l)) eqn:Hcmp.
  - (* a full page, and more to come *)
    apply Nat.ltb_lt in Hcmp.
    apply requestPage_ok with (maxBackoff := maxBackoff) in Hsend.
    set (page := {| pageItems := firstn P (skipn off l);
                    nextCursor := Some (off + P) |} : Page T nat) in *.
    assert (Hlen : length (pageItems page) = P).
    { unfold page. cbn [pageItems]. rewrite length_firstn, length_skipn. lia. }
    assert (Hk2 : 2 <= k) by nia.
    rewrite (fetchLoop_continue _ _ _ _ _ _ s page (off + P) (ustate s) [] Hsend eq_refl).
    + assert (Hlt : maxPages - S (iter s) < k) by lia.
      pose proof (IH (maxPages - S (iter s)) Hlt
                     (advance s page (off + P) (ustate s) []) eq_refl) as Hrest.
      cbv zeta in Hrest. cbn [advance cursor acc position] in Hrest.
      destruct Hrest as [Hitems [Hreason Herror]].
      * replace (Nat.max 1 (maxPages - S (iter s))) with (maxPages - S (iter s)) by lia.
        replace (Nat.max 1 k) with k in Hfit by lia. nia.
      * rewrite length_app, Hlen. lia.
      * split; [| split; assumption].
        rewrite Hitems. rewrite <- app_assoc. f_equal.
        unfold page. cbn [pageItems].
        rewrite <- (firstn_skipn P (skipn off l)) at 2.
        rewrite skipn_skipn. rewrite (Nat.add_comm P off). reflexivity.
    + rewrite length_app, Hlen. lia.
    + lia.
  - (* the last page *)
    apply Nat.ltb_ge in Hcmp.
    apply requestPage_ok with (maxBackoff := maxBackoff) in Hsend.
    rewrite (fetchLoop_exhausted _ _ _ _ _ _ s _ (ustate s) [] Hsend eq_refl).
    cbn [finish result items stoppedReason error pageItems].
    split; [| split; reflexivity].
    f_equal. apply firstn_all2. rewrite length_skipn. lia.
Qed.

End Paged.

(** C2. For the simulated upstream holding the [N] items of [l] in pages
    of size [P > 0], with [maxItems] and [maxPages] large enough not to
    trigger ([N <= maxItems] and [N <= maxPages * P]), [fetchAll] returns
    exactly the items of [l] in their order, with [stoppedReason =
    Exhausted] and no error. *)
Theorem fetchAll_returns_all_items_exhausted :
  forall (T : Type) (l : list T) (endpoint : string) (P maxPages maxItems maxBackoff : nat),
    0 < P ->
    length l <= maxItems ->
    length l <= maxPages * P ->
    items (result (fetchAll (pagedUpstream l) endpoint P maxPages maxItems maxBackoff tt)) = l
    /\ stoppedReason
         (result (fetchAll (pagedUpstream l) endpoint P maxPages maxItems maxBackoff tt))
       = Exhausted
    /\ error (fetchAll (pagedUpstream l) endpoint P maxPages maxItems maxBackoff tt) = None.
Proof.
  intros T l endpoint P maxPages maxItems maxBackoff HP Hitems Hpages.
  unfold fetchAll.
  apply (paged_loop_gathers_rest l endpoint P maxPages maxItems maxBackoff HP
           (maxPages - 0)
           {| cursor := None; acc := []; iter := 0;
              reported := []; paused := []; ustate := tt |}).
  - reflexivity.
  - cbn [cursor position].
    pose proof (Nat.le_max_r 1 (maxPages - 0)) as Hmax. nia.
  - cbn [cursor position acc length]. lia.
Qed.

(** C2 at five items in pages of two. *)
Lemma fetchAll_exhausted_witness :
  items (result (fetchAll (pagedUpstream [10; 20; 30; 40; 50]) "/accounts" 2 100 1000 30 tt))
  = [10; 20; 30; 40; 50]
  /\ stoppedReason
       (result (fetchAll (pagedUpstream [10; 20; 30; 40; 50]) "/accounts" 2 100 1000 30 tt))
     = Exhausted
  /\ error (fetchAll (pagedUpstream [10; 20; 30; 40; 50]) "/accounts" 2 100 1000 30 tt) = None.
Proof.
  apply (fetchAll_returns_all_items_exhausted nat [10; 20; 30; 40; 50] "/accounts" 2 100 1000 30);
    simpl; lia.
Defined.

Example fetchAll_empty_upstream :
  result (fetchAll (pagedUpstream (@nil nat)) "/accounts" 50 0 0 30 tt)
  = {| items := []; isComplete := true; totalFetched := 0; stoppedReason := Exhausted |}.
Proof. reflexivity. Qed.

(** *** The safety ceiling: an upstream that never terminates *)

Section Endless.

Context {T Cursor U : Type}.
Variable send : U -> string -> option Cursor -> nat -> Reply T Cursor * U.
Variable endpoint : string.
Variables pageSize maxPages maxItems maxBackoff : nat.

Hypothesis upstream_endless : neverTerminates send endpoint pageSize.
Hypothesis caller_limit_out_of_reach : maxPages * pageSize < maxItems.

Lemma endless_loop_hits_ceiling (k : nat) :
  forall s : LoopState T Cursor U,
    maxPages - iter s = S k ->
    length (acc s) <= iter s * pageSize ->
    let out := fetchLoop send endpoint pageSize maxPages maxItems maxBackoff s in
    stoppedReason (result out) = SafetyLimitReached
    /\ iterations out = maxPages
    /\ error out = None
    /\ items (result out)
       = acc s ++ gathered send endpoint pageSize (S k) (ustate s) (cursor s)
    /\ gathered send endpoint pageSize (S k) (ustate s) (cursor s) <> [].
Proof.
  induction k as [| k IH]; intros s Hk Hacc; cbv zeta;
    destruct (upstream_endless (ustate s) (cursor s))
      as [page [next [u1 [Hsend [Hnext [Hfull Hsize]]]]]];
    pose proof Hsend as Hraw;
    apply requestPage_ok with (maxBackoff := maxBackoff) in Hsend;
    assert (Hroom : length (acc s ++ pageItems page) < maxItems)
      by (rewrite length_app; nia);
    cbn [gathered]; rewrite Hraw, Hnext.
  - rewrite (fetchLoop_safety_limit _ _ _ _ _ _ s page next u1 [] Hsend Hnext Hroom)
      by lia.
    cbn [finish result items stoppedReason error iterations gathered].
    rewrite app_nil_r.
    repeat split; [lia | exact Hfull].
  - rewrite (fetchLoop_continue _ _ _ _ _ _ s page next u1 [] Hsend Hnext Hroom)
      by lia.
    destruct (IH (advance s page next u1 [])) as [Hreason [Hiter [Herr [Hitems Hmore]]]].
    + cbn [advance iter]. lia.
    + cbn [advance iter acc]. rewrite length_app. nia.
    + repeat split; [exact Hreason | exact Hiter | exact Herr | |].
      * rewrite Hitems. cbn [advance acc ustate cursor]. rewrite app_assoc. reflexivity.
      * intros Hnil. apply app_eq_nil in Hnil. destruct Hnil as [Hnil _]. contradiction.
Qed.

End Endless.

(** C5, as the engine of the specification has it. For every upstream
    that never terminates and serves between one and [pageSize] items per
    page, with [maxPages >= 1] and [maxItems] out of reach
    ([maxPages * pageSize < maxItems]), [fetchAll] stops after exactly
    [maxPages] iterations with [stoppedReason = SafetyLimitReached], no
    error, and the items gathered up to that point: those of the
    [maxPages] pages the upstream served, in upstream order, which are not
    empty. *)
Theorem fetchAll_stops_at_safety_ceiling :
  forall (T Cursor U : Type)
         (send : U -> string -> option Cursor -> nat -> Reply T Cursor * U)
         (endpoint : string) (pageSize maxPages maxItems maxBackoff : nat) (u : U),
    neverTerminates send endpoint pageSize ->
    1 <= maxPages ->
    maxPages * pageSize < maxItems ->
    stoppedReason (result (fetchAll send endpoint pageSize maxPages maxItems maxBackoff u))
    = SafetyLimitReached
    /\ iterations (fetchAll send endpoint pageSize maxPages maxItems maxBackoff u) = maxPages
    /\ error (fetchAll send endpoint pageSize maxPages maxItems maxBackoff u) = None
    /\ items (result (fetchAll send endpoint pageSize maxPages maxItems maxBackoff u))
       = gathered send endpoint pageSize maxPages u None
    /\ items (result (fetchAll send endpoint pageSize maxPages maxItems maxBackoff u)) <> [].
Proof.
  intros T Cursor U send endpoint pageSize maxPages maxItems maxBackoff u
         Hendless Hpages Hitems.
  unfold fetchAll.
  destruct (endless_loop_hits_ceiling send endpoint pageSize maxPages maxItems maxBackoff
              Hendless Hitems (maxPages - 1)
              {| cursor := None; acc := []; iter := 0;
                 reported := []; paused := []; ustate := u |})
    as [Hreason [Hiter [Herr [Hgathered Hsome]]]].
  - cbn [iter]. lia.
  - cbn [acc iter length]. lia.
  - cbn [acc ustate cursor app] in Hgathered, Hsome.
    replace (S (maxPages - 1)) with maxPages in Hgathered, Hsome by lia.
    repeat split; [exact Hreason | exact Hiter | exact Herr | exact Hgathered |].
    rewrite Hgathered. exact Hsome.
Qed.

Lemma endlessUpstream_neverTerminates (f : nat -> nat) (endpoint : string) (size : nat) :
  0 < size -> neverTerminates (endlessUpstream f) endpoint size.
Proof.
  intros Hsize u c. unfold endlessUpstream.
  eexists. exists (position c + size). exists u.
  split; [reflexivity |]. cbn [nextCursor pageItems]. split; [reflexivity |]. split.
  - destruct size as [| size]; [lia | discriminate].
  - rewrite length_map, length_seq. lia.
Qed.

(** The amended C5 on the endless upstream of the numbers 0, 1, 2, ...:
    three pages of two give the six items of all three pages. *)
Lemma fetchAll_safety_ceiling_witness :
  stoppedReason (result (fetchAll (endlessUpstream (fun i => i)) "/accounts" 2 3 100 30 tt))
  = SafetyLimitReached
  /\ iterations (fetchAll (endlessUpstream (fun i => i)) "/accounts" 2 3 100 30 tt) = 3
  /\ error (fetchAll (endlessUpstream (fun i => i)) "/accounts" 2 3 100 30 tt) = None
  /\ items (result (fetchAll (endlessUpstream (fun i => i)) "/accounts" 2 3 100 30 tt))
     = [0; 1; 2; 3; 4; 5]
  /\ items (result (fetchAll (endlessUpstream (fun i => i)) "/accounts" 2 3 100 30 tt)) <> [].
Proof.
  apply (fetchAll_stops_at_safety_ceiling nat nat unit
           (endlessUpstream (fun i => i)) "/accounts" 2 3 100 30 tt).
  - apply endlessUpstream_neverTerminates. lia.
  - lia.
  - simpl. lia.
Defined.

(** C5 as stated fails when [maxItems] is reached first: on the endless
    upstream with [maxPages = 3] and [maxItems = 1] the engine stops after
    one iteration with [CallerLimitReached]. *)
Lemma fetchAll_caller_limit_before_ceiling :
  result (fetchAll (endlessUpstream (fun i => i)) "/accounts" 2 3 1 30 tt)
  = {| items := [0; 1]; isComplete := false; totalFetched := 2;
       stoppedReason := CallerLimitReached |}
  /\ iterations (fetchAll (endlessUpstream (fun i => i)) "/accounts" 2 3 1 30 tt) = 1.
Proof. split; reflexivity. Qed.

(** *** Partial results: an upstream that fails on a later page *)

Lemma skipn_nth_error {A : Type} (pages : list A) (i : nat) (x : A) :
  nth_error pages i = Some x -> skipn i pages = x :: skipn (S i) pages.
Proof.
  revert i. induction pages as [| p pages IH]; intros [| i] Hnth;
    try discriminate.
  - injection Hnth as ->. reflexivity.
  - simpl in Hnth. rewrite (skipn_cons i p pages). apply IH. exact Hnth.
Qed.

Section Failing.

Context {T : Type}.
Variable pages : list (list T).
Variable e : RequestError.
Variable endpoint : string.
Variables pageSize maxPages maxItems maxBackoff : nat.

Hypothesis pages_within_ceiling : length pages < maxPages.

(** A request for the page after the served ones fails with [e], also
    after the one retry that follows a rate-limit error. *)
Lemma failing_request (u : unit) (c : option nat) :
  nth_error pages (position c) = None ->
  exists waits,
    requestPage (failingUpstream pages e) endpoint pageSize maxBackoff u c
    = (Failed e, u, waits).
Proof.
  intros Hnone. unfold requestPage, failingUpstream. rewrite Hnone.
  destruct e; eexists; reflexivity.
Qed.

Lemma failing_loop_keeps_items (n : nat) :
  forall s : LoopState T nat unit,
    position (cursor s) + n = length pages ->
    iter s = position (cursor s) ->
    length (acc s) + length (concat (skipn (position (cursor s)) pages)) < maxItems ->
    let out := fetchLoop (failingUpstream pages e) endpoint pageSize
                         maxPages maxItems maxBackoff s in
    items (result out) = acc s ++ concat (skipn (position (cursor s)) pages)
    /\ stoppedReason (result out) = UpstreamError
    /\ isComplete (result out) = false
    /\ error out = Some e.
Proof.
  induction n as [| n IH]; intros s Hpos Hiter Hroom; cbv zeta.
  - assert (Hnone : nth_error pages (position (cursor s)) = None).
    { apply nth_error_None. lia. }
    destruct (failing_request (ustate s) (cursor s) Hnone) as [waits Hreq].
    rewrite (fetchLoop_failed _ _ _ _ _ _ s e (ustate s) waits Hreq).
    cbn [finish result items stoppedReason isComplete error].
    repeat split.
    rewrite skipn_all2 by lia. cbn [concat]. rewrite app_nil_r. reflexivity.
  - destruct (nth_error pages (position (cursor s))) as [its |] eqn:Hnth.
    2:{ apply nth_error_None in Hnth. lia. }
    pose proof (skipn_nth_error pages _ its Hnth) as Hskip.
    rewrite Hskip in Hroom |- *. cbn [concat] in Hroom |- *.
    rewrite length_app in Hroom.
    assert (Hsend : failingUpstream pages e (ustate s) endpoint (cursor s) pageSize
                    = (Ok {| pageItems := its;
                             nextCursor := Some (S (position (cursor s))) |}, ustate s)).
    { unfold failingUpstream. rewrite Hnth. reflexivity. }
    apply requestPage_ok with (maxBackoff := maxBackoff) in Hsend.
    rewrite (fetchLoop_continue _ _ _ _ _ _ s _ _ (ustate s) [] Hsend eq_refl).
    + destruct (IH (advance s {| pageItems := its;
                                 nextCursor := Some (S (position (cursor s))) |}
                            (S (position (cursor s))) (ustate s) []))
        as [Hitems [Hreason [Hcomplete Herr]]].
      * cbn [advance cursor position]. lia.
      * cbn [advance cursor position iter]. lia.
      * cbn [advance cursor position acc pageItems]. rewrite length_app. lia.
      * repeat split; [| exact Hreason | exact Hcomplete | exact Herr].
        rewrite Hitems. cbn [advance cursor position acc pageItems].
        rewrite <- app_assoc. reflexivity.
    + cbn [pageItems]. rewrite length_app. lia.
    + lia.
Qed.

End Failing.

(** C6, as the engine of the specification has it. For every upstream
    that serves the pages 1..K-1 ([pages]) and fails on page K with the
    error [e], with [maxPages >= K] and [maxItems] above the number of items
    of those pages, [fetchAll] returns a partial result holding exactly the
    items of pages 1..K-1 in order, with [stoppedReason = UpstreamError],
    and the error [e] is surfaced alongside it. *)
Theorem fetchAll_keeps_partial_result_on_failure :
  forall (T : Type) (pages : list (list T)) (e : RequestError) (endpoint : string)
         (pageSize maxPages maxItems maxBackoff : nat),
    length pages < maxPages ->
    length (concat pages) < maxItems ->
    items (result (fetchAll (failingUpstream pages e) endpoint pageSize
                            maxPages maxItems maxBackoff tt))
    = concat pages
    /\ stoppedReason (result (fetchAll (failingUpstream pages e) endpoint pageSize
                                       maxPages maxItems maxBackoff tt))
       = UpstreamError
    /\ isComplete (result (fetchAll (failingUpstream pages e) endpoint pageSize
                                    maxPages maxItems maxBackoff tt))
       = false
    /\ error (fetchAll (failingUpstream pages e) endpoint pageSize
                       maxPages maxItems maxBackoff tt)
       = Some e.
Proof.
  intros T pages e endpoint pageSize maxPages maxItems maxBackoff Hpages Hitems.
  unfold fetchAll.
  apply (failing_loop_keeps_items pages e endpoint pageSize maxPages maxItems maxBackoff
           Hpages (length pages)
           {| cursor := None; acc := []; iter := 0;
              reported := []; paused := []; ustate := tt |}).
  - reflexivity.
  - reflexivity.
  - cbn [cursor position acc length skipn]. lia.
Qed.

(** The amended C6 at K = 3 with a rate-limit error: the one retry fails
    too and the two pages gathered are kept. *)
Lemma fetchAll_partial_result_witness :
  items (result (fetchAll (failingUpstream [[1; 2]; [3]] (RateLimitError 60))
                          "/accounts" 2 100 1000 30 tt))
  = [1; 2; 3]
  /\ stoppedReason (result (fetchAll (failingUpstream [[1; 2]; [3]] (RateLimitError 60))
                                     "/accounts" 2 100 1000 30 tt))
     = UpstreamError
  /\ isComplete (result (fetchAll (failingUpstream [[1; 2]; [3]] (RateLimitError 60))
                                  "/accounts" 2 100 1000 30 tt))
     = false
  /\ error (fetchAll (failingUpstream [[1; 2]; [3]] (RateLimitError 60))
                     "/accounts" 2 100 1000 30 tt)
     = Some (RateLimitError 60).
Proof.
  apply (fetchAll_keeps_partial_result_on_failure nat [[1; 2]; [3]] (RateLimitError 60)
           "/accounts" 2 100 1000 30); simpl; lia.
Defined.

(** C6 as stated fails when the safety ceiling comes first: with
    [maxPages = 1] the upstream that would fail on page 2 is never asked
    for it, and the run ends with [SafetyLimitReached] and no error. *)
Lemma fetchAll_ceiling_before_failing_page :
  result (fetchAll (failingUpstream [[1; 2]] NetworkError) "/accounts" 2 1 1000 30 tt)
  = {| items := [1; 2]; isComplete := true; totalFetched := 2;
       stoppedReason := SafetyLimitReached |}
  /\ error (fetchAll (failingUpstream [[1; 2]] NetworkError) "/accounts" 2 1 1000 30 tt)
     = None.
Proof. split; reflexivity. Qed.

Example rate_limit_pause_is_bounded :
  pauses (fetchAll (failingUpstream [[1; 2]] (RateLimitError 60)) "/accounts" 2 5 1000 30 tt)
  = [30].
Proof. reflexivity. Qed.

End PaginationProofs.

(** ** Body normalization *)

Module BodyProofs.
Import BodyHtml.

Lemma append_empty_r (s : string) : s +++ EmptyString = s.
Proof. induction s as [| c s IH]; simpl; [reflexivity | rewrite IH; reflexivity]. Qed.

Lemma hasNewline_append (a b : string) :
  hasNewline (a +++ b) = hasNewline a || hasNewline b.
Proof.
  induction a as [| c a IH]; simpl; [reflexivity |].
  rewrite IH. apply orb_assoc.
Qed.

Lemma splitLines_nonempty (s : string) : splitLines s <> [].
Proof.
  induction s as [| c s IH]; simpl; [discriminate |].
  destruct (isNewline c); [discriminate |].
  destruct (splitLines s); discriminate.
Qed.

(** A text without line breaks is its own single line. *)
Lemma splitLines_single (s : string) : hasNewline s = false -> splitLines s = [s].
Proof.
  induction s as [| c s IH]; simpl; [reflexivity |].
  intros Hnl. apply orb_false_iff in Hnl. destruct Hnl as [Hc Hs].
  rewrite Hc, (IH Hs). reflexivity.
Qed.

(** No line contains a line break. *)
Lemma splitLines_clean (s : string) :
  Forall (fun line => hasNewline line = false) (splitLines s).
Proof.
  induction s as [| c s IH]; simpl.
  - constructor; [reflexivity | constructor].
  - destruct (isNewline c) eqn:Hc.
    + constructor; [reflexivity | exact IH].
    + destruct (splitLines s) as [| line lines].
      * constructor; [simpl; rewrite Hc; reflexivity | constructor].
      * inversion IH as [| x xs Hline Hlines]; subst.
        constructor; [simpl; rewrite Hc; exact Hline | exact Hlines].
Qed.

Lemma startsWith_append (pre a b : string) :
  startsWith pre a = true -> startsWith pre (a +++ b) = true.
Proof.
  unfold startsWith. revert a.
  induction pre as [| c pre IH]; intros a Ha.
  - destruct (a +++ b); reflexivity.
  - destruct a as [| d a]; simpl in *; [discriminate |].
    destruct (ascii_dec c d); [apply IH; exact Ha | discriminate].
Qed.

Lemma endsWith_refl (s : string) : endsWith s s = true.
Proof.
  destruct s as [| c s]; [reflexivity |].
  cbn [endsWith]. rewrite String.eqb_refl. reflexivity.
Qed.

Lemma endsWith_append (suf a b : string) :
  endsWith suf b = true -> endsWith suf (a +++ b) = true.
Proof.
  intros Hb. induction a as [| c a IH]; [exact Hb |].
  change (String c a +++ b) with (String c (a +++ b)).
  cbn [endsWith]. rewrite IH. apply orb_true_r.
Qed.

Lemma paragraph_block (line : string) :
  hasNewline line = false -> isBlock (paragraph line).
Proof.
  intros Hline. unfold paragraph.
  destruct (isConverted line) eqn:Hconv.
  - split; assumption.
  - split.
    + unfold isConverted. apply andb_true_iff. split.
      * apply startsWith_append. reflexivity.
      * apply endsWith_append. apply endsWith_append. apply endsWith_refl.
    + rewrite !hasNewline_append, Hline. reflexivity.
Qed.

Lemma concatAll_block (blocks : list string) :
  blocks <> [] -> Forall isBlock blocks -> isBlock (concatAll blocks).
Proof.
  induction blocks as [| b rest IH]; [contradiction |].
  intros _ Hall. inversion Hall as [| x xs [Hconv Hline] Hrest]; subst.
  destruct rest as [| b2 rest].
  - simpl. rewrite append_empty_r. split; assumption.
  - destruct (IH ltac:(discriminate) Hrest) as [Hconv2 Hline2].
    apply andb_true_iff in Hconv. destruct Hconv as [Hstart _].
    apply andb_true_iff in Hconv2. destruct Hconv2 as [_ Hend].
    change (concatAll (b :: b2 :: rest)) with (b +++ concatAll (b2 :: rest)).
    split.
    + unfold isConverted. apply andb_true_iff. split.
      * apply startsWith_append. exact Hstart.
      * apply endsWith_append. exact Hend.
    + rewrite hasNewline_append, Hline, Hline2. reflexivity.
Qed.

(** The converted body is one block. *)
Lemma normalizeBody_block (body : string) : isBlock (normalizeBody body).
Proof.
  unfold normalizeBody. apply concatAll_block.
  - intros Hnil. apply map_eq_nil in Hnil. exact (splitLines_nonempty body Hnil).
  - apply Forall_map. eapply Forall_impl; [| apply splitLines_clean].
    intros line Hline. apply paragraph_block. exact Hline.
Qed.

(** A block is left as it is. *)
Lemma normalizeBody_of_block (s : string) : isBlock s -> normalizeBody s = s.
Proof.
  intros [Hconv Hline]. unfold normalizeBody.
  rewrite (splitLines_single s Hline). simpl.
  unfold paragraph. rewrite Hconv. apply append_empty_r.
Qed.

(** C7. The paragraph conversion is idempotent: converting a converted
    body gives the converted body, with no second layer of paragraph
    markup. *)
Theorem normalizeBody_idempotent :
  forall body : string, normalizeBody (normalizeBody body) = normalizeBody body.
Proof.
  intros body. apply normalizeBody_of_block. apply normalizeBody_block.
Qed.

Example normalizeBody_two_paragraphs :
  normalizeBody ("Hello" +++ str1 newline +++ "World") = "<p>Hello</p><p>World</p>".
Proof. reflexivity. Qed.

Example normalizeBody_keeps_empty_lines :
  normalizeBody ("a" +++ str1 newline +++ str1 newline +++ "b") = "<p>a</p><p></p><p>b</p>".
Proof. reflexivity. Qed.

End BodyProofs.

(** ** The tool validation script *)

Module ValidatorProofs.
Import ToolValidator.

Lemma arrayIncludes_In (x : string) (l : list string) :
  arrayIncludes x l = true <-> In x l.
Proof.
  unfold arrayIncludes. rewrite existsb_exists. split.
  - intros [y [Hin Heq]]. apply String.eqb_eq in Heq. subst. exact Hin.
  - intros Hin. exists x. split; [exact Hin | apply String.eqb_refl].
Qed.

(** The number of definitions with the name of [t] is the number of
    occurrences of that name. *)
Lemma duplicates_count (definedTools : list ToolDefinition) (t : ToolDefinition) :
  length (duplicates definedTools t)
  = count_occ string_dec (map name definedTools) (name t).
Proof.
  unfold duplicates. induction definedTools as [| d ds IH]; simpl; [reflexivity |].
  destruct (String.eqb_spec (name d) (name t)) as [Heq | Hne];
    destruct (string_dec (name d) (name t)) as [Heq' | Hne']; try contradiction;
    simpl; rewrite IH; reflexivity.
Qed.

Lemma statusOf_first_error (issue : string) (after : list string) :
  includes "No implementation" issue || includes "Duplicate" issue = true ->
  statusOf (issue :: after) = ERROR.
Proof. intros Hissue. unfold statusOf. cbn [existsb]. rewrite Hissue. reflexivity. Qed.

Lemma duplicateDefinition_error (n : nat) :
  includes "No implementation" (duplicateDefinition n)
  || includes "Duplicate" (duplicateDefinition n) = true.
Proof.
  assert (Hdup : includes "Duplicate" (duplicateDefinition n) = true) by reflexivity.
  rewrite Hdup. apply orb_true_r.
Qed.

Ltac status_is_error tac :=
  match goal with
  | |- context [statusOf ?found] =>
      let He := fresh "He" in
      assert (He : statusOf found = ERROR) by (apply statusOf_first_error; tac);
      rewrite He
  end.

(** With a case in the switch and a single definition, only the two
    documentation checks are left, and neither of them is an error. *)
Lemma documentation_issues_status (t : ToolDefinition) :
  let found :=
    (if Nat.ltb (jsLength (description t)) 20 then [descriptionTooShort] else [])
    ++ (if String.eqb (name t) "create_campaign"
           && negb (includes "list_accounts" (description t))
        then [missingPrerequisite] else []) in
  statusOf found <> ERROR
  /\ (statusOf found = VALID
      <-> (20 <= jsLength (description t)
           /\ (name t = "create_campaign"
               -> includes "list_accounts" (description t) = true))).
Proof.
  cbv zeta.
  destruct (Nat.ltb_spec (jsLength (description t)) 20) as [Hshort | Hlong].
  - split.
    + destruct (String.eqb (name t) "create_campaign"
                && negb (includes "list_accounts" (description t)));
        cbv; discriminate.
    + split; [| intros [Hlen _]; lia].
      destruct (String.eqb (name t) "create_campaign"
                && negb (includes "list_accounts" (description t)));
        cbv; discriminate.
  - cbn [app].
    destruct (String.eqb_spec (name t) "create_campaign") as [Hcc | Hother].
    + destruct (includes "list_accounts" (description t)) eqn:Hdoc; cbn [andb negb].
      * split; [cbv; discriminate |].
        split; [intros _; split; [exact Hlong | reflexivity] | reflexivity].
      * split; [cbv; discriminate |].
        split; [cbv; discriminate |].
        intros [_ Hneed]. specialize (Hneed Hcc). discriminate.
    + cbn [andb]. split; [cbv; discriminate |].
      split; [intros _; split; [exact Hlong | contradiction] | reflexivity].
Qed.

(** The issues of a tool, by the outcome of the first two checks. *)
Lemma toolIssues_cases (definedTools : list ToolDefinition)
    (implementedCases : list string) (t : ToolDefinition) :
  (~ In (name t) implementedCases
   /\ exists rest, toolIssues definedTools implementedCases t = noImplementation :: rest)
  \/ (In (name t) implementedCases
      /\ 1 < count_occ string_dec (map name definedTools) (name t)
      /\ exists n rest,
           toolIssues definedTools implementedCases t = duplicateDefinition n :: rest)
  \/ (In (name t) implementedCases
      /\ count_occ string_dec (map name definedTools) (name t) <= 1
      /\ toolIssues definedTools implementedCases t
         = (if Nat.ltb (jsLength (description t)) 20
            then [descriptionTooShort] else [])
           ++ (if String.eqb (name t) "create_campaign"
                  && negb (includes "list_accounts" (description t))
               then [missingPrerequisite] else [])).
Proof.
  unfold toolIssues. rewrite <- duplicates_count.
  destruct (arrayIncludes (name t) implementedCases) eqn:Himpl.
  - assert (Hin : In (name t) implementedCases) by (apply arrayIncludes_In; exact Himpl).
    cbn [negb app].
    destruct (Nat.ltb_spec 1 (length (duplicates definedTools t))) as [Hdup | Huniq].
    + right. left. split; [exact Hin |]. split; [exact Hdup |].
      eexists. eexists. reflexivity.
    + right. right. split; [exact Hin |]. split; [exact Huniq | reflexivity].
  - left. split.
    + intros Hin. apply arrayIncludes_In in Hin. congruence.
    + eexists. reflexivity.
Qed.

Lemma checkTool_error_iff (definedTools : list ToolDefinition)
    (implementedCases : list string) (t : ToolDefinition) :
  status (checkTool definedTools implementedCases t) = ERROR
  <-> (~ In (name t) implementedCases
       \/ 1 < count_occ string_dec (map name definedTools) (name t)).
Proof.
  unfold checkTool. cbn [status].
  destruct (toolIssues_cases definedTools implementedCases t)
    as [[Hno [rest ->]] | [[Hin [Hdup [n [rest ->]]]] | [Hin [Huniq ->]]]].
  - split; [intros _; left; exact Hno |].
    intros _. apply statusOf_first_error. reflexivity.
  - split; [intros _; right; exact Hdup |].
    intros _. apply statusOf_first_error. apply duplicateDefinition_error.
  - destruct (documentation_issues_status t) as [Hnot _]. cbv zeta in Hnot.
    split; [intros Herr; contradiction |].
    intros [Hno | Hdup]; [contradiction | lia].
Qed.

Lemma checkTool_valid_iff (definedTools : list ToolDefinition)
    (implementedCases : list string) (t : ToolDefinition) :
  status (checkTool definedTools implementedCases t) = VALID
  <-> (In (name t) implementedCases
       /\ count_occ string_dec (map name definedTools) (name t) <= 1
       /\ 20 <= jsLength (description t)
       /\ (name t = "create_campaign"
           -> includes "list_accounts" (description t) = true)).
Proof.
  unfold checkTool. cbn [status].
  destruct (toolIssues_cases definedTools implementedCases t)
    as [[Hno [rest ->]] | [[Hin [Hdup [n [rest ->]]]] | [Hin [Huniq ->]]]].
  - rewrite statusOf_first_error by reflexivity.
    split; [discriminate | intros [Hin _]; contradiction].
  - rewrite statusOf_first_error by apply duplicateDefinition_error.
    split; [discriminate | intros [_ [Hle _]]; lia].
  - destruct (documentation_issues_status t) as [_ Hvalid]. cbv zeta in Hvalid.
    rewrite Hvalid. split.
    + intros [Hlen Hdoc]. repeat split; assumption.
    + intros [_ [_ [Hlen Hdoc]]]. split; assumption.
Qed.

(** X1. A defined tool gets the status ERROR exactly when it has no case
    in the switch or is defined more than once, and the status VALID exactly
    when no check finds an issue: it is implemented, defined once, its
    description has a [length] of at least 20 (in UTF-16 code units, as
    JavaScript counts) and, for create_campaign, mentions list_accounts. *)
Theorem checkTool_status :
  forall (definedTools : list ToolDefinition) (implementedCases : list string)
         (t : ToolDefinition),
    (status (checkTool definedTools implementedCases t) = ERROR
     <-> (~ In (name t) implementedCases
          \/ 1 < count_occ string_dec (map name definedTools) (name t)))
    /\ (status (checkTool definedTools implementedCases t) = VALID
        <-> (In (name t) implementedCases
             /\ count_occ string_dec (map name definedTools) (name t) <= 1
             /\ 20 <= jsLength (description t)
             /\ (name t = "create_campaign"
                 -> includes "list_accounts" (description t) = true))).
Proof.
  intros definedTools implementedCases t. split.
  - apply checkTool_error_iff.
  - apply checkTool_valid_iff.
Qed.

Example checkTool_warning :
  map status (validateTools sampleTools sampleCases) = [VALID; WARNING].
Proof. reflexivity. Qed.

(** A description of twenty bytes and eighteen code units is too short. *)
Example description_with_a_rocket :
  String.length "Create campaign 🚀" = 20
  /\ jsLength "Create campaign 🚀" = 18
  /\ status (checkTool [] ["launch"]
               {| name := "launch"; description := "Create campaign 🚀";
                  inputSchema := JObj [] |})
     = WARNING.
Proof. repeat split. Qed.

(** *** The verdict of the script *)

Lemma hasErrors_false (results : list ValidationResult) :
  hasErrors results = false <-> forall r, In r results -> status r <> ERROR.
Proof.
  unfold hasErrors. induction results as [| r rs IH]; simpl.
  - split; [intros _ r [] | reflexivity].
  - rewrite orb_false_iff, IH. split.
    + intros [Hr Hrs] x [Heq | Hin]; [| apply Hrs; exact Hin].
      subst x. intros Herr. rewrite Herr in Hr. discriminate.
    + intros Hall. split.
      * specialize (Hall r (or_introl eq_refl)).
        destruct (status r); [reflexivity | reflexivity | contradiction].
      * intros x Hin. apply Hall. right. exact Hin.
Qed.

Lemma defined_name (definedTools : list ToolDefinition) (caseName : string) :
  existsb (fun t => String.eqb (name t) caseName) definedTools = true
  <-> In caseName (map name definedTools).
Proof.
  rewrite existsb_exists, in_map_iff. split.
  - intros [t [Hin Heq]]. apply String.eqb_eq in Heq. exists t. split; assumption.
  - intros [t [Heq Hin]]. exists t. split; [exact Hin | apply String.eqb_eq; exact Heq].
Qed.

(** No result of the second loop: every case has a tool definition. *)
Lemma orphans_none (definedTools : list ToolDefinition) (implementedCases : list string) :
  (forall r, In r (orphans definedTools implementedCases) -> status r <> ERROR)
  <-> (forall n, In n implementedCases -> In n (map name definedTools)).
Proof.
  unfold orphans. split.
  - intros Hall n Hin. apply defined_name.
    destruct (existsb (fun t => String.eqb (name t) n) definedTools) eqn:Hdef;
      [reflexivity |].
    exfalso.
    apply (Hall {| tool := n; issues := [orphanedCode]; status := ERROR |});
      [| reflexivity].
    apply in_flat_map. exists n. split; [exact Hin |]. rewrite Hdef. left. reflexivity.
  - intros Hall r Hin. apply in_flat_map in Hin. destruct Hin as [n [Hn Hr]].
    apply Hall in Hn. apply defined_name in Hn. rewrite Hn in Hr. destruct Hr.
Qed.

(** X2. With both extractions done, the script ends successfully exactly
    when the tool names are pairwise distinct and the names defined are the
    names with a case in the switch; otherwise it exits with code 1.
    Descriptions never make it fail. *)
Theorem main_succeeds_iff :
  forall (definedTools : list ToolDefinition) (implementedCases : list string),
    snd (main (Returned (definedTools, implementedCases))) = ExitSuccess
    <-> (NoDup (map name definedTools)
         /\ forall n, In n (map name definedTools) <-> In n implementedCases).
Proof.
  intros definedTools implementedCases. cbn [main].
  assert (Hverdict :
            hasErrors (validateTools definedTools implementedCases) = false
            <-> (NoDup (map name definedTools)
                 /\ forall n, In n (map name definedTools) <-> In n implementedCases)).
  { rewrite hasErrors_false. unfold validateTools. split.
    - intros Hall.
      assert (Htools : forall t, In t definedTools ->
                In (name t) implementedCases
                /\ count_occ string_dec (map name definedTools) (name t) <= 1).
      { intros t Hin.
        assert (Hok : status (checkTool definedTools implementedCases t) <> ERROR).
        { apply Hall. apply in_or_app. left. apply in_map. exact Hin. }
        rewrite checkTool_error_iff in Hok. split.
        - destruct (in_dec string_dec (name t) implementedCases) as [Hyes | Hno];
            [exact Hyes | exfalso; apply Hok; left; exact Hno].
        - destruct (Nat.le_gt_cases
                      (count_occ string_dec (map name definedTools) (name t)) 1)
            as [Hle | Hgt]; [exact Hle | exfalso; apply Hok; right; exact Hgt]. }
      assert (Hcases : forall n, In n implementedCases -> In n (map name definedTools)).
      { apply orphans_none. intros r Hin. apply Hall. apply in_or_app. right. exact Hin. }
      split.
      + apply (NoDup_count_occ string_dec). intros x.
        destruct (in_dec string_dec x (map name definedTools)) as [Hin | Hout].
        * apply in_map_iff in Hin. destruct Hin as [t [<- Hin]].
          apply Htools. exact Hin.
        * apply (count_occ_not_In string_dec) in Hout. lia.
      + intros n. split; [| apply Hcases].
        intros Hin. apply in_map_iff in Hin. destruct Hin as [t [<- Hin]].
        apply Htools. exact Hin.
    - intros [Hnodup Hsame] r Hin. apply in_app_or in Hin. destruct Hin as [Hin | Hin].
      + apply in_map_iff in Hin. destruct Hin as [t [<- Hin]].
        rewrite checkTool_error_iff. intros [Hno | Hdup].
        * apply Hno. apply Hsame. apply in_map. exact Hin.
        * pose proof (proj1 (NoDup_count_occ string_dec _) Hnodup (name t)). lia.
      + revert r Hin. apply orphans_none. intros n Hn. apply Hsame. exact Hn. }
  destruct (hasErrors (validateTools definedTools implementedCases)) eqn:Herr; cbn [snd].
  - split; [discriminate |]. intros Hok. apply Hverdict in Hok. discriminate.
  - split; [intros _; apply Hverdict; reflexivity | reflexivity].
Qed.

(** *** The recommendations *)

(** Every issue the script records is one of its five texts. *)
Lemma validateTools_issues (definedTools : list ToolDefinition)
    (implementedCases : list string) (r : ValidationResult) (issue : string) :
  In r (validateTools definedTools implementedCases) ->
  In issue (issues r) ->
  issue = noImplementation
  \/ (exists n, issue = duplicateDefinition n)
  \/ issue = descriptionTooShort
  \/ issue = missingPrerequisite
  \/ issue = orphanedCode.
Proof.
  unfold validateTools. intros Hr Hissue. apply in_app_or in Hr. destruct Hr as [Hr | Hr].
  - apply in_map_iff in Hr. destruct Hr as [t [<- _]].
    unfold checkTool in Hissue. cbn [issues] in Hissue. unfold toolIssues in Hissue.
    repeat (apply in_app_or in Hissue; destruct Hissue as [Hissue | Hissue]).
    + destruct (negb _); [destruct Hissue as [<- | []]; tauto | destruct Hissue].
    + destruct (Nat.ltb _ _); [destruct Hissue as [<- | []] | destruct Hissue].
      right. left. eexists. reflexivity.
    + destruct (Nat.ltb _ _); [destruct Hissue as [<- | []]; tauto | destruct Hissue].
    + destruct (andb _ _); [destruct Hissue as [<- | []]; tauto | destruct Hissue].
  - unfold orphans in Hr. apply in_flat_map in Hr. destruct Hr as [n [_ Hr]].
    destruct (negb _); [| destruct Hr].
    destruct Hr as [<- | []]. cbn [issues] in Hissue. destruct Hissue as [<- | []]. tauto.
Qed.

(** None of the four texts that [printReport] looks for is an issue the
    script records: each of them is only the beginning of one. *)
Lemma someIssueIs_never (definedTools : list ToolDefinition)
    (implementedCases : list string) (text : string) :
  In text ["Duplicate tool definition"; "Implementation without tool definition";
           "No implementation found"; "Missing prerequisite documentation"] ->
  someIssueIs text (validateTools definedTools implementedCases) = false.
Proof.
  intros Htext. unfold someIssueIs.
  destruct (existsb _ _) eqn:Hsome; [| reflexivity]. exfalso.
  apply existsb_exists in Hsome. destruct Hsome as [r [Hr Hinc]].
  apply arrayIncludes_In in Hinc.
  destruct (validateTools_issues _ _ r text Hr Hinc)
    as [Heq | [[n Heq] | [Heq | [Heq | Heq]]]];
    cbn [In] in Htext;
    repeat (destruct Htext as [<- | Htext]; [discriminate Heq |]);
    exact Htext.
Qed.

(** X3. Whatever the script found, the recommendations block of its report
    never lists a recommendation: it is absent, or it is the heading
    followed by the empty line. *)
Theorem recommendations_never_listed :
  forall (definedTools : list ToolDefinition) (implementedCases : list string),
    recommendationItems (validateTools definedTools implementedCases) = []
    /\ (recommendations (validateTools definedTools implementedCases) = []
        \/ recommendations (validateTools definedTools implementedCases)
           = [say "🔧 RECOMMENDATIONS:"; console_log []]).
Proof.
  intros definedTools implementedCases.
  assert (Hitems : recommendationItems (validateTools definedTools implementedCases) = []).
  { unfold recommendationItems.
    rewrite !someIssueIs_never by (cbn [In]; tauto). reflexivity. }
  split; [exact Hitems |].
  unfold recommendations. rewrite Hitems.
  destruct (_ || _); [right | left]; reflexivity.
Qed.

Example report_with_a_duplicate :
  recommendations
    (validateTools [ {| name := "list_leads"; description := "List the leads of a campaign";
                        inputSchema := JObj [] |};
                     {| name := "list_leads"; description := "List the leads of a campaign";
                        inputSchema := JObj [] |} ]
                   ["list_leads"])
  = [say "🔧 RECOMMENDATIONS:"; console_log []].
Proof. reflexivity. Qed.

End ValidatorProofs.

(** ** The request handed to [authHandler] *)

Module RequestProofs.
Import McpAuth VercelFunction RequestBuild.


Lemma lowerChar_idempotent (c : ascii) : lowerChar (lowerChar c) = lowerChar c.
Proof.
  destruct c as [b0 b1 b2 b3 b4 b5 b6 b7].
  destruct b0, b1, b2, b3, b4, b5, b6, b7; reflexivity.
Qed.

Lemma toLowerCase_idempotent (s : string) : toLowerCase (toLowerCase s) = toLowerCase s.
Proof.
  induction s as [| c s IH]; simpl; [reflexivity |].
  rewrite lowerChar_idempotent, IH. reflexivity.
Qed.

(** *** [Headers.set] *)

Lemma headersSet_names_known (name value : string) (hs : list (string * string)) :
  In (toLowerCase name) (map fst hs) ->
  map fst (headersSet name value hs) = map fst hs.
Proof.
  induction hs as [| [k v] hs IH]; simpl; [contradiction |].
  destruct (String.eqb_spec k (toLowerCase name)) as [Heq | Hne]; [reflexivity |].
  intros [Hk | Hin]; [contradiction |]. simpl. rewrite IH by exact Hin. reflexivity.
Qed.

Lemma headersSet_names_new (name value : string) (hs : list (string * string)) :
  ~ In (toLowerCase name) (map fst hs) ->
  map fst (headersSet name value hs) = map fst hs ++ [toLowerCase name].
Proof.
  induction hs as [| [k v] hs IH]; simpl; [reflexivity |].
  intros Hout.
  destruct (String.eqb_spec k (toLowerCase name)) as [Heq | Hne]; [tauto |].
  simpl. rewrite IH by tauto. reflexivity.
Qed.

Lemma NoDup_snoc {A : Type} (l : list A) (x : A) :
  NoDup l -> ~ In x l -> NoDup (l ++ [x]).
Proof.
  induction l as [| y l IH]; simpl; intros Hnd Hout.
  - constructor; [intros [] | constructor].
  - inversion Hnd as [| y' l' Hy Hl]; subst. constructor.
    + intros Hin. apply in_app_or in Hin. destruct Hin as [Hin | [Heq | []]];
        [contradiction | subst; tauto].
    + apply IH; [exact Hl | tauto].
Qed.

Lemma headersSet_NoDup (name value : string) (hs : list (string * string)) :
  NoDup (map fst hs) -> NoDup (map fst (headersSet name value hs)).
Proof.
  intros Hnd.
  destruct (in_dec string_dec (toLowerCase name) (map fst hs)) as [Hin | Hout].
  - rewrite headersSet_names_known by exact Hin. exact Hnd.
  - rewrite headersSet_names_new by exact Hout. apply NoDup_snoc; assumption.
Qed.

Lemma headersSet_sets (name value : string) (hs : list (string * string)) :
  In (toLowerCase name, value) (headersSet name value hs).
Proof.
  induction hs as [| [k0 v0] hs IH]; simpl; [left; reflexivity |].
  destruct (String.eqb_spec k0 (toLowerCase name)) as [Heq | Hne].
  - left. rewrite Heq. reflexivity.
  - right. exact IH.
Qed.

Lemma headersSet_keeps (name value k v : string) (hs : list (string * string)) :
  k <> toLowerCase name -> In (k, v) hs -> In (k, v) (headersSet name value hs).
Proof.
  intros Hk. induction hs as [| [k0 v0] hs IH]; simpl; [tauto |].
  destruct (String.eqb_spec k0 (toLowerCase name)) as [Heq | Hne].
  - intros [Hhead | Hin]; [injection Hhead as Hk0 _; congruence | right; exact Hin].
  - intros [Hhead | Hin]; [left; exact Hhead | right; apply IH; exact Hin].
Qed.

Lemma headersSet_origin (name value k v : string) (hs : list (string * string)) :
  In (k, v) (headersSet name value hs) ->
  (k = toLowerCase name /\ v = value) \/ In (k, v) hs.
Proof.
  induction hs as [| [k0 v0] hs IH]; simpl.
  - intros [Heq | []]. injection Heq as <- <-. left. split; reflexivity.
  - destruct (String.eqb_spec k0 (toLowerCase name)) as [Heq | Hne].
    + intros [Hhead | Hin].
      * injection Hhead as <- <-. left. split; [exact Heq | reflexivity].
      * right. right. exact Hin.
    + intros [Hhead | Hin]; [right; left; exact Hhead |].
      destruct (IH Hin) as [Hnew | Hold]; [left; exact Hnew | right; right; exact Hold].
Qed.

(** *** The copy of [req.headers] *)

Lemma copyHeaders_step (k : string) (v : HeaderValue) (rest : list (string * HeaderValue))
    (acc : list (string * string)) :
  copyHeaders ((k, v) :: rest) acc
  = copyHeaders rest (if headerTruthy v then headersSet k (forwardedValue v) acc else acc).
Proof.
  simpl. destruct (headerTruthy v); [| reflexivity].
  destruct v; reflexivity.
Qed.

Lemma copyHeaders_invariant (hs : list (string * HeaderValue)) :
  forall acc : list (string * string),
    NoDup (map fst acc) ->
    (forall k v, In (k, v) acc -> toLowerCase k = k) ->
    NoDup (map fst (copyHeaders hs acc))
    /\ (forall k v, In (k, v) (copyHeaders hs acc) -> toLowerCase k = k).
Proof.
  induction hs as [| [k0 hv] hs IH]; intros acc Hnd Hlow; [split; assumption |].
  rewrite copyHeaders_step. apply IH.
  - destruct (headerTruthy hv); [apply headersSet_NoDup |]; exact Hnd.
  - destruct (headerTruthy hv); [| exact Hlow].
    intros k v Hin. apply headersSet_origin in Hin.
    destruct Hin as [[-> _] | Hin]; [apply toLowerCase_idempotent | apply (Hlow k v Hin)].
Qed.

(** X4. The headers of the request built for [authHandler] have pairwise
    distinct names, all in lower case, whatever [req.headers] holds. *)
Theorem copyHeaders_names_distinct_lowercase :
  forall hs : list (string * HeaderValue),
    NoDup (map fst (copyHeaders hs []))
    /\ (forall k v, In (k, v) (copyHeaders hs []) -> toLowerCase k = k).
Proof.
  intros hs. apply copyHeaders_invariant.
  - constructor.
  - intros k v [].
Qed.

(** An entry of the accumulator survives when no later header has its
    name. *)
Lemma copyHeaders_keeps (hs : list (string * HeaderValue)) :
  forall (acc : list (string * string)) (k v : string),
    In (k, v) acc ->
    ~ In k (map (fun kv => toLowerCase (fst kv)) hs) ->
    In (k, v) (copyHeaders hs acc).
Proof.
  induction hs as [| [k0 hv] hs IH]; intros acc k v Hin Hfree; [exact Hin |].
  rewrite copyHeaders_step. simpl in Hfree. apply IH; [| tauto].
  destruct (headerTruthy hv); [| exact Hin].
  apply headersSet_keeps; [| exact Hin]. intros Heq. apply Hfree. left. symmetry. exact Heq.
Qed.

Lemma copyHeaders_origin (hs : list (string * HeaderValue)) :
  forall (acc : list (string * string)) (k v : string),
    In (k, v) (copyHeaders hs acc) ->
    In (k, v) acc
    \/ exists k0 hv,
         In (k0, hv) hs /\ headerTruthy hv = true
         /\ k = toLowerCase k0 /\ v = forwardedValue hv.
Proof.
  induction hs as [| [k0 hv] hs IH]; intros acc k v Hin; [left; exact Hin |].
  rewrite copyHeaders_step in Hin. apply IH in Hin.
  destruct Hin as [Hacc | [k1 [hv1 [Hsrc Hrest]]]].
  - destruct (headerTruthy hv) eqn:Htruthy; [| left; exact Hacc].
    apply headersSet_origin in Hacc. destruct Hacc as [[-> ->] | Hacc]; [| left; exact Hacc].
    right. exists k0, hv. repeat split; [left; reflexivity | exact Htruthy].
  - right. exists k1, hv1. split; [right; exact Hsrc | exact Hrest].
Qed.

(** X5. When the names of [req.headers] are distinct without regard to
    case (as Node delivers them), the [Headers] object that [handler] fills
    from them holds exactly the headers whose value is truthy, each under
    its lower-case name with its string value or the first element of its
    array value; headers that are [undefined] or empty are left out. *)
Theorem copyHeaders_exactly_truthy :
  forall (hs : list (string * HeaderValue)) (k v : string),
    NoDup (map (fun kv => toLowerCase (fst kv)) hs) ->
    (In (k, v) (copyHeaders hs [])
     <-> exists k0 hv,
          In (k0, hv) hs /\ headerTruthy hv = true
          /\ k = toLowerCase k0 /\ v = forwardedValue hv).
Proof.
  intros hs k v Hnd. split.
  - intros Hin. apply copyHeaders_origin in Hin. destruct Hin as [[] | Hsrc]. exact Hsrc.
  - intros [k0 [hv [Hsrc [Htruthy [-> ->]]]]].
    generalize (@nil (string * string)) as acc.
    induction hs as [| [k1 hv1] hs IH]; intros acc; [destruct Hsrc |].
    rewrite copyHeaders_step. simpl in Hnd.
    inversion Hnd as [| x xs Hfresh Hrest]; subst.
    destruct Hsrc as [Hhead | Htail].
    + injection Hhead as -> ->. rewrite Htruthy.
      apply copyHeaders_keeps; [apply headersSet_sets | exact Hfresh].
    + apply IH; assumption.
Qed.

Lemma sampleHeaders_distinct :
  NoDup (map (fun kv => toLowerCase (fst kv)) sampleHeaders).
Proof.
  simpl. repeat constructor; simpl; intuition discriminate.
Qed.

(** X5 on sample headers: the bearer token is in the [Headers] object
    under the name authorization. *)
Lemma copyHeaders_witness :
  In ("authorization", "Bearer inst_key_0123456") (copyHeaders sampleHeaders []).
Proof.
  apply (proj2 (copyHeaders_exactly_truthy sampleHeaders
                  "authorization" "Bearer inst_key_0123456" sampleHeaders_distinct)).
  exists "Authorization", (HStr "Bearer inst_key_0123456").
  repeat split. right. left. reflexivity.
Defined.

Example copyHeaders_sample :
  copyHeaders sampleHeaders []
  = [ ("host", "instantly-mcp.vercel.app");
      ("authorization", "Bearer inst_key_0123456");
      ("set-cookie", "a=1") ].
Proof. reflexivity. Qed.





(** A request without a method that has a body is answered 500, though
    [authHandler] would answer 200; as a POST it is handed on. *)
Example bare_request_is_refused :
  statusCode (fst (handler samplePlatform okHandler bareRequest)) = 500%Z
  /\ statusCode (fst (handler samplePlatform okHandler
                        {| method := Some "POST"; url := url bareRequest;
                           headers := headers bareRequest; body := body bareRequest |}))
     = 200%Z.
Proof. split; reflexivity. Qed.

End RequestProofs.

(** ** Token verification: scopes and console output *)

Module AuthExtras.
Import McpAuth RequestBuild AuthProofs.

(** X7. Every [AuthInfo] that [verifyToken] returns carries each scope
    that the options of [withMcpAuth] require, so an accepted token is never
    short of a required scope. *)
Theorem accepted_token_has_required_scopes :
  forall (msgShort msgOk : string) (req : WebRequest) (bearer : option string)
         (info : AuthInfo) (scope : string),
    fst (verifyTokenWith msgShort msgOk req bearer) = Some info ->
    In scope (requiredScopes authOptions) ->
    In scope (scopes info).
Proof.
  intros m1 m2 req bearer info scope Hacc Hreq.
  destruct (verifyTokenWith_accepts m1 m2 req bearer info Hacc) as [tok [-> Hlen]].
  rewrite verifyTokenWith_long in Hacc by exact Hlen.
  cbn [fst] in Hacc. injection Hacc as <-. cbn [scopes].
  cbn [requiredScopes authOptions In] in Hreq.
  destruct Hreq as [<- | []]. left. reflexivity.
Qed.

Lemma required_scopes_witness :
  In "read" (scopes sampleInfo).
Proof.
  apply (accepted_token_has_required_scopes
           "[OAuth] Bearer token too short" "[OAuth] Bearer token validated"
           sampleRequest (Some "inst_key_0123456") sampleInfo "read").
  - reflexivity.
  - left. reflexivity.
Defined.

(** X8. The console output of [verifyToken] tells only whether the token
    was missing, too short or accepted: two tokens of the same kind, on
    whatever requests, give the same output, so the output does not reveal
    the token. *)
Theorem verifyToken_log_hides_token :
  forall (msgShort msgOk : string) (req1 req2 : WebRequest) (t1 t2 : string),
    truthy t1 = truthy t2 ->
    Nat.ltb (String.length t1) 10 = Nat.ltb (String.length t2) 10 ->
    snd (verifyTokenWith msgShort msgOk req1 (Some t1))
    = snd (verifyTokenWith msgShort msgOk req2 (Some t2)).
Proof.
  intros m1 m2 req1 req2 t1 t2 Htruthy Hlen. unfold verifyTokenWith.
  rewrite Htruthy, Hlen.
  destruct (negb (truthy t2)); [reflexivity |].
  destruct (Nat.ltb (String.length t2) 10); reflexivity.
Qed.

Lemma verifyToken_log_witness :
  snd (verifyToken sampleRequest (Some "inst_key_0123456"))
  = snd (verifyToken sampleRequest (Some "another_key_98765")).
Proof.
  apply (verifyToken_log_hides_token
           "[OAuth] Bearer token too short" "[OAuth] Bearer token validated"
           sampleRequest sampleRequest "inst_key_0123456" "another_key_98765");
    reflexivity.
Defined.

End AuthExtras.

(** ** The cached server over sequences of calls and requests *)

Module RunProofs.
Import VercelFunction VercelAdapter ServerlessRuns AdapterProofs.

Section Sequences.

Variable App : Type.
Variable construct : nat -> Completion (option App).
Variable runApp : App -> VercelRequest -> Completion VercelResponse.

Lemma createServerTimes_step (n : nat) (st : AdapterState App) :
  createServerTimes construct (S n) st
  = (fst (createServer construct st)
       :: fst (createServerTimes construct n (snd (createServer construct st))),
     snd (createServerTimes construct n (snd (createServer construct st)))).
Proof.
  simpl. destruct (createServer construct st) as [r st1]. cbn [fst snd].
  destruct (createServerTimes construct n st1) as [rs st2]. reflexivity.
Qed.

(** X9. In any sequence of calls of [createServer], whatever failures
    come first, all the calls that return an application return the same
    one. *)
Theorem createServer_never_returns_two_instances :
  forall (n : nat) (st : AdapterState App) (a b : App),
    In (Returned a) (fst (createServerTimes construct n st)) ->
    In (Returned b) (fst (createServerTimes construct n st)) ->
    a = b.
Proof.
  induction n as [| n IH]; intros st a b Ha Hb; [destruct Ha |].
  rewrite createServerTimes_step in Ha, Hb. cbn [fst] in Ha, Hb.
  destruct (createServer construct st) as [[app | e] st1] eqn:Hcall; cbn [fst snd] in Ha, Hb.
  - pose proof (createServer_returns_cached App construct st st1 app Hcall) as Hcached.
    rewrite (createServerTimes_cached App construct n st1 app Hcached) in Ha, Hb.
    cbn [fst] in Ha, Hb.
    assert (Hone : forall x, Returned app = Returned x
                             \/ In (Returned x) (repeat (Returned app) n) -> x = app).
    { intros x [Heq | Hin]; [| apply repeat_spec in Hin]; congruence. }
    rewrite (Hone a Ha), (Hone b Hb). reflexivity.
  - destruct Ha as [Ha | Ha]; [discriminate |].
    destruct Hb as [Hb | Hb]; [discriminate |].
    apply (IH st1 a b Ha Hb).
Qed.

(** *** Successful initializations *)

(** What the console of the adapter records agrees with its cache. *)
Definition consistent (ad : AdapterState App) : Prop :=
  successes (console ad) <= 1
  /\ (cachedApp ad = None -> successes (console ad) = 0).

Lemma successes_app (l1 l2 : list LogEntry) :
  successes (l1 ++ l2) = successes l1 + successes l2.
Proof. unfold successes. rewrite filter_app, length_app. reflexivity. Qed.

Lemma createServer_consistent (ad : AdapterState App) :
  consistent ad -> consistent (snd (createServer construct ad)).
Proof.
  intros [Hle Hnone]. unfold VercelAdapter.createServer.
  destruct (cachedApp ad) as [app |] eqn:Hc.
  - cbn [snd]. split; [exact Hle |]. rewrite Hc. discriminate.
  - specialize (Hnone eq_refl).
    destruct (construct (initializations ad)) as [[app |] | e]; cbn [snd];
      unfold consistent; cbn [console cachedApp];
      rewrite ?successes_app, Hnone; cbn; split; (lia || discriminate || reflexivity).
Qed.

Lemma handler_consistent (fs : FunctionState App) (req : VercelRequest) :
  consistent (adapter fs) -> consistent (adapter (snd (handler construct runApp fs req))).
Proof.
  intros Hc. pose proof (createServer_consistent (adapter fs) Hc) as Hnext.
  unfold VercelAdapter.handler, VercelAdapter.handlerTry.
  destruct (serverInstance fs) as [app |].
  - destruct (runApp app req); exact Hc.
  - destruct (createServer construct (adapter fs)) as [[app | e] ad]; cbn [snd] in Hnext.
    + destruct (runApp app req); exact Hnext.
    + exact Hnext.
Qed.

Lemma handler_logging_consistent (development : bool) (fs : FunctionState App)
    (req : VercelRequest) :
  consistent (adapter fs) ->
  consistent (adapter (snd (handler_logging construct runApp development fs req))).
Proof.
  intros Hc. pose proof (createServer_consistent (adapter fs) Hc) as Hnext.
  unfold handler_logging, handlerLoggingTry.
  cbn [VercelAdapter.say serverInstance adapter].
  destruct (serverInstance fs) as [app |].
  - destruct (runApp app req); exact Hc.
  - destruct (createServer construct (adapter fs)) as [[app | e] ad]; cbn [snd] in Hnext.
    + destruct (runApp app req); exact Hnext.
    + exact Hnext.
Qed.

Lemma handleAll_step
    (h : FunctionState App -> VercelRequest -> VercelResponse * FunctionState App)
    (fs : FunctionState App) (req : VercelRequest) (rest : list VercelRequest) :
  handleAll h fs (req :: rest)
  = (fst (h fs req) :: fst (handleAll h (snd (h fs req)) rest),
     snd (handleAll h (snd (h fs req)) rest)).
Proof.
  simpl. destruct (h fs req) as [response st1]. cbn [fst snd].
  destruct (handleAll h st1 rest) as [responses st2]. reflexivity.
Qed.

Lemma handleAll_consistent
    (h : FunctionState App -> VercelRequest -> VercelResponse * FunctionState App) :
  (forall fs req, consistent (adapter fs) -> consistent (adapter (snd (h fs req)))) ->
  forall reqs fs,
    consistent (adapter fs) -> consistent (adapter (snd (handleAll h fs reqs))).
Proof.
  intros Hstep. induction reqs as [| req rest IH]; intros fs Hc; [exact Hc |].
  rewrite handleAll_step. cbn [snd]. apply IH. apply Hstep. exact Hc.
Qed.

(** X10. However many requests a process handles from a cold start, with
    either revision of the entry point, the console records at most one
    successful initialization of the server. *)
Theorem at_most_one_successful_initialization :
  forall (reqs : list VercelRequest) (development : bool),
    successes (console (adapter (snd (handleAll (handler construct runApp)
                                                initialFunction reqs)))) <= 1
    /\ successes (console (adapter (snd (handleAll
                                           (handler_logging construct runApp development)
                                           initialFunction reqs)))) <= 1.
Proof.
  intros reqs development.
  assert (Hcold : consistent (adapter (@initialFunction App))).
  { split; [cbn; lia | reflexivity]. }
  split.
  - apply (handleAll_consistent (handler construct runApp) handler_consistent reqs _ Hcold).
  - apply (handleAll_consistent (handler_logging construct runApp development)
             (handler_logging_consistent development) reqs _ Hcold).
Qed.

(** *** The two revisions of the entry point *)




End Sequences.

(** X9 on a transport that would give a new application every time: the
    second call returns application 0 again, not application 1. *)
Lemma createServer_one_instance_witness :
  fst (createServerTimes freshConstruct 2 initialAdapter) = [Returned 0; Returned 0]
  /\ forall b, In (Returned b) (fst (createServerTimes freshConstruct 2 initialAdapter)) ->
               0 = b.
Proof.
  split; [reflexivity |].
  intros b. apply (createServer_never_returns_two_instances nat freshConstruct 2
                     initialAdapter 0 b).
  left. reflexivity.
Defined.

Example serving_two_requests :
  fst (handleAll (handler freshConstruct echoApp) initialFunction twoRequests)
  = [ {| statusCode := 200; setHeaders := []; sent := SentText "/health" |};
      {| statusCode := 200; setHeaders := []; sent := SentText "/mcp" |} ].
Proof. reflexivity. Qed.

End RunProofs.

(** ** The OAuth discovery endpoints *)

Module DiscoveryProofs.
Import OAuthConfig Discovery OAuthProofs.

Lemma dispatch_added (app : App) (r : Route) (v : Verb) (req : ExpressRequest)
    (answer : list LogEntry * json) :
  dispatch app v req = Some answer -> dispatch (app ++ [r]) v req = Some answer.
Proof. intros Hanswer. rewrite dispatch_last, Hanswer. reflexivity. Qed.

(** X12. [setupOAuthEndpoints] never takes a request away from a route
    registered before it: whatever the application answered before, it
    answers after. *)
Theorem setupOAuthEndpoints_keeps_earlier_routes :
  forall (env : Env) (config : Config) (app : App) (v : Verb) (req : ExpressRequest)
         (answer : list LogEntry * json),
    dispatch app v req = Some answer ->
    dispatch (setupOAuthEndpoints env app config) v req = Some answer.
Proof.
  intros env config app v req answer Hanswer.
  unfold setupOAuthEndpoints, app_get, app_post.
  repeat apply dispatch_added. exact Hanswer.
Qed.

(** X12 on an application with its own POST /oauth/token: its answer
    stands, and the constant token of [setupOAuthEndpoints] is not served. *)
Lemma keeps_earlier_routes_witness :
  dispatch (setupOAuthEndpoints localEnv [ownRoute] localConfig) POST
           (requestFor "/oauth/token")
  = Some ([], JObj [("error", JStr "unsupported_grant_type")]).
Proof.
  apply (setupOAuthEndpoints_keeps_earlier_routes localEnv localConfig [ownRoute] POST
           (requestFor "/oauth/token")).
  reflexivity.
Defined.







(** The introspection route as Express matches it: whatever the case of
    the letters, with a slash at the end and a query string; a GET of it,
    and a request for a longer path, are not taken. *)
Example introspect_as_express_matches :
  serves (setupOAuthEndpoints localEnv [] localConfig) POST "/OAuth/Introspect/?token=abc"
  = true
  /\ serves (setupOAuthEndpoints localEnv [] localConfig) GET "/oauth/introspect" = false
  /\ serves (setupOAuthEndpoints localEnv [] localConfig) POST "/oauth/introspect/x" = false
  /\ serves (setupOAuthEndpoints localEnv [] localConfig) HEAD "/oauth/authorize" = true
  /\ serves (setupOAuthEndpoints localEnv [] localConfig) HEAD "/oauth/token" = false
  /\ serves (setupOAuthEndpoints localEnv [] localConfig) OPTIONS "/oauth/token" = false.
Proof. repeat split. Qed.

Example introspect_is_post_only :
  serves (setupOAuthEndpoints localEnv [] localConfig) GET "/oauth/introspect" = false
  /\ serves (setupOAuthEndpoints localEnv [] localConfig) POST "/oauth/introspect" = true.
Proof. split; reflexivity. Qed.

(** X14. The two discovery documents of a fresh application agree with
    each other and with its routes: the issuer is the base URL, the protected
    resource is that same URL and names it as its only authorization server,
    and each endpoint the documents advertise is the base URL followed by a
    path that the application serves with the verb of that endpoint. *)
Theorem discovery_documents_match_routes :
  forall (env : Env) (config : Config),
    exists server resource : json,
      document (setupOAuthEndpoints env [] config) "/.well-known/oauth-authorization-server"
      = Some server
      /\ document (setupOAuthEndpoints env [] config) "/.well-known/oauth-protected-resource"
         = Some resource
      /\ field "issuer" server = Some (JStr (getBaseUrl env config))
      /\ field "resource" resource = Some (JStr (getBaseUrl env config))
      /\ field "authorization_servers" resource
         = Some (JArr [JStr (getBaseUrl env config)])
      /\ field "authorization_endpoint" server
         = Some (JStr (getBaseUrl env config +++ "/oauth/authorize"))
      /\ serves (setupOAuthEndpoints env [] config) GET "/oauth/authorize" = true
      /\ field "token_endpoint" server
         = Some (JStr (getBaseUrl env config +++ "/oauth/token"))
      /\ serves (setupOAuthEndpoints env [] config) POST "/oauth/token" = true
      /\ field "token_introspection_endpoint" resource
         = Some (JStr (getBaseUrl env config +++ "/oauth/introspect"))
      /\ serves (setupOAuthEndpoints env [] config) POST "/oauth/introspect" = true
      /\ field "scopes_supported" server = field "scopes_supported" resource.
Proof.
  intros env config. eexists. eexists.
  split; [reflexivity |]. split; [reflexivity |].
  repeat split.
Qed.

End DiscoveryProofs.

(** ** Cutting the tools array into objects *)

Module SplitterProofs.
Import ToolSplitter.

(** *** Strings *)

Lemma append_nil_right (s : string) : s +++ EmptyString = s.
Proof. induction s as [| c s IH]; simpl; [reflexivity | rewrite IH; reflexivity]. Qed.

Lemma append_associative (a b c : string) : (a +++ b) +++ c = a +++ (b +++ c).
Proof. induction a as [| x a IH]; simpl; [reflexivity | rewrite IH; reflexivity]. Qed.

Lemma append_char (a : string) (c : ascii) (b : string) :
  (a +++ str1 c) +++ b = a +++ String c b.
Proof. rewrite append_associative. reflexivity. Qed.

(** *** [trim] and [replace(/,$/, '')] *)

Lemma trimStart_shorter (s : string) : String.length (trimStart s) <= String.length s.
Proof.
  induction s as [| c s IH]; simpl; [lia |].
  destruct (isSpace c); simpl; lia.
Qed.

Lemma trimStart_spaces (ws s : string) :
  allChars isSpace ws = true -> trimStart (ws +++ s) = trimStart s.
Proof.
  induction ws as [| c ws IH]; simpl; [reflexivity |].
  intros Hall. apply andb_true_iff in Hall. destruct Hall as [Hc Hws].
  rewrite Hc. apply IH. exact Hws.
Qed.

Lemma trimEnd_idempotent (s : string) : trimEnd (trimEnd s) = trimEnd s.
Proof.
  induction s as [| c s IH]; [reflexivity |].
  cbn [trimEnd]. destruct (trimEnd s) as [| k ks] eqn:Hk.
  - destruct (isSpace c) eqn:Hc; [reflexivity |].
    cbn [trimEnd str1]. rewrite Hc. reflexivity.
  - cbn [trimEnd]. cbn [trimEnd] in IH. rewrite IH. reflexivity.
Qed.

(** What does not start with white space still does not after [trimEnd]. *)
Lemma trimStart_trimEnd (s : string) :
  trimStart s = s -> trimStart (trimEnd s) = trimEnd s.
Proof.
  destruct s as [| c s]; [reflexivity |].
  intros Hstart. cbn [trimStart] in Hstart.
  destruct (isSpace c) eqn:Hc.
  - pose proof (trimStart_shorter s) as Hlen. rewrite Hstart in Hlen. simpl in Hlen. lia.
  - cbn [trimEnd]. rewrite Hc.
    destruct (trimEnd s); unfold str1; cbn [trimStart]; rewrite Hc; reflexivity.
Qed.

Lemma trimStart_idempotent (s : string) : trimStart (trimStart s) = trimStart s.
Proof.
  induction s as [| c s IH]; [reflexivity |].
  cbn [trimStart]. destruct (isSpace c) eqn:Hc; [exact IH |].
  cbn [trimStart]. rewrite Hc. reflexivity.
Qed.

Lemma trim_idempotent (s : string) : trim (trim s) = trim s.
Proof.
  unfold trim.
  rewrite (trimStart_trimEnd (trimStart s)) by apply trimStart_idempotent.
  apply trimEnd_idempotent.
Qed.

(** Text that ends with a character that is not white space is left as it
    is by [trimEnd]. *)
Lemma trimEnd_ends_solid (a : string) (c : ascii) :
  isSpace c = false -> trimEnd (a +++ str1 c) = a +++ str1 c.
Proof.
  intros Hc. induction a as [| x a IH].
  - cbn. rewrite Hc. reflexivity.
  - change (String x a +++ str1 c) with (String x (a +++ str1 c)).
    cbn [trimEnd]. rewrite IH.
    destruct (a +++ str1 c) eqn:Hcat; [| reflexivity].
    destruct a; discriminate.
Qed.

Lemma stripTrailingComma_comma (a : string) :
  stripTrailingComma (a +++ str1 comma) = a.
Proof.
  induction a as [| x a IH]; [reflexivity |].
  change (String x a +++ str1 comma) with (String x (a +++ str1 comma)).
  cbn [stripTrailingComma]. rewrite IH.
  destruct (a +++ str1 comma) eqn:Hcat; [destruct a; discriminate | reflexivity].
Qed.

Lemma stripTrailingComma_other (a : string) (c : ascii) :
  Ascii.eqb c comma = false -> stripTrailingComma (a +++ str1 c) = a +++ str1 c.
Proof.
  intros Hc. induction a as [| x a IH].
  - cbn. rewrite Hc. reflexivity.
  - change (String x a +++ str1 c) with (String x (a +++ str1 c)).
    cbn [stripTrailingComma]. rewrite IH.
    destruct (a +++ str1 c) eqn:Hcat; [destruct a; discriminate | reflexivity].
Qed.

Lemma trim_spaces (ws : string) : allChars isSpace ws = true -> trim ws = EmptyString.
Proof.
  intros Hws. unfold trim.
  rewrite <- (append_nil_right ws), trimStart_spaces by exact Hws. reflexivity.
Qed.

(** *** What the pieces look like *)

(** A piece with no white space at either end, and not empty. *)
Definition tidy (piece : string) : Prop := trim piece = piece /\ piece <> EmptyString.

Lemma truthy_nonempty (s : string) : truthy s = true -> s <> EmptyString.
Proof. destruct s; [discriminate | discriminate]. Qed.

Ltac split_cases :=
  repeat match goal with
         | |- context [if ?b then _ else _] => destruct b eqn:?
         end.

Lemma splitStep_tidy (last : bool) (st : SplitState) (c : ascii) :
  Forall tidy (objects st) -> Forall tidy (objects (splitStep last st c)).
Proof.
  intros Hall. unfold splitStep. split_cases; cbn [objects]; try exact Hall.
  all: apply Forall_app; split; [exact Hall |]; constructor; [| constructor].
  all: match goal with
       | H : truthy (trim ?x) && _ = true |- tidy (trim ?x) =>
           apply andb_true_iff in H; destruct H as [H _];
           split; [apply trim_idempotent | apply truthy_nonempty; exact H]
       end.
Qed.

Lemma splitLoop_tidy (more : bool) (s : string) :
  forall st : SplitState,
    Forall tidy (objects st) -> Forall tidy (objects (splitLoop more st s)).
Proof.
  induction s as [| c s IH]; intros st Hall; [exact Hall |].
  cbn [splitLoop]. apply IH. apply splitStep_tidy. exact Hall.
Qed.

Lemma filter_tidy (pieces : list string) :
  Forall tidy pieces ->
  filter (fun obj => Nat.ltb 0 (String.length (trim obj))) pieces = pieces.
Proof.
  induction 1 as [| piece pieces [Htrim Hsome] _ IH]; [reflexivity |].
  cbn [filter]. rewrite Htrim, IH.
  destruct piece; [contradiction | reflexivity].
Qed.

(** The filter keeps every piece, and every piece is tidy. *)
Lemma splitToolObjects_parts (toolsSection : string) :
  splitToolObjects toolsSection = objects (splitLoop false initialSplit toolsSection)
  /\ Forall tidy (objects (splitLoop false initialSplit toolsSection)).
Proof.
  assert (Hall : Forall tidy (objects (splitLoop false initialSplit toolsSection))).
  { apply splitLoop_tidy. constructor. }
  split; [| exact Hall].
  unfold splitToolObjects. apply filter_tidy. exact Hall.
Qed.

(** X15. Every piece that [splitToolObjects] returns is non-empty and has
    no white space at either end, whatever the text; the filter at the end
    of the function never removes anything. *)
Theorem splitToolObjects_pieces_trimmed :
  forall toolsSection : string,
    splitToolObjects toolsSection = objects (splitLoop false initialSplit toolsSection)
    /\ forall piece, In piece (splitToolObjects toolsSection) ->
                     trim piece = piece /\ piece <> EmptyString.
Proof.
  intros toolsSection.
  destruct (splitToolObjects_parts toolsSection) as [Hsame Hall].
  split; [exact Hsame |].
  intros piece Hin. rewrite Hsame in Hin.
  exact (proj1 (Forall_forall _ _) Hall piece Hin).
Qed.

Example split_ragged_text :
  splitToolObjects ("  {a} ,," +++ str1 newline +++ "{ b , c }  ") = ["{a}"; "{ b , c }"].
Proof. reflexivity. Qed.

(** *** Objects joined by commas *)

Lemma allChars_append (p : ascii -> bool) (a b : string) :
  allChars p (a +++ b) = allChars p a && allChars p b.
Proof.
  induction a as [| c a IH]; simpl; [reflexivity |].
  rewrite IH. apply andb_assoc.
Qed.

(** White space is neither a backslash, a quote, a brace nor a comma. *)
Lemma space_is_inert (c : ascii) :
  isSpace c = true ->
  Ascii.eqb c backslash = false /\ isQuote c = false
  /\ Ascii.eqb c openBrace = false /\ Ascii.eqb c closeBrace = false
  /\ Ascii.eqb c comma = false.
Proof.
  destruct c as [b0 b1 b2 b3 b4 b5 b6 b7].
  destruct b0, b1, b2, b3, b4, b5, b6, b7; cbv; intros Hc;
    (discriminate Hc || (repeat split; reflexivity)).
Qed.

(** A quote is neither a backslash nor a brace. *)
Lemma quote_is_no_brace (c : ascii) :
  isQuote c = true ->
  Ascii.eqb c openBrace = false /\ Ascii.eqb c closeBrace = false.
Proof.
  destruct c as [b0 b1 b2 b3 b4 b5 b6 b7].
  destruct b0, b1, b2, b3, b4, b5, b6, b7; cbv; intros Hc;
    (discriminate Hc || (split; reflexivity)).
Qed.

Lemma splitLoop_more_cons (st : SplitState) (c : ascii) (rest : string) :
  splitLoop true st (String c rest) = splitLoop true (splitStep false st c) rest.
Proof. cbn [splitLoop]. destruct rest; reflexivity. Qed.

(** The characters before further text are none of them the last. *)
Lemma splitLoop_before (more : bool) (a : string) (c : ascii) (b : string) :
  forall st : SplitState,
    splitLoop more st (a +++ String c b)
    = splitLoop more (splitLoop true st a) (String c b).
Proof.
  induction a as [| x a IH]; intros st; [reflexivity |].
  change (String x a +++ String c b) with (String x (a +++ String c b)).
  rewrite splitLoop_more_cons. rewrite <- IH.
  cbn [splitLoop]. destruct (a +++ String c b) eqn:Hcat; [| reflexivity].
  destruct a; discriminate.
Qed.

Lemma splitLoop_more_append (a b : string) :
  forall st : SplitState,
    splitLoop true st (a +++ b) = splitLoop true (splitLoop true st a) b.
Proof.
  induction a as [| x a IH]; intros st; [reflexivity |].
  change (String x a +++ b) with (String x (a +++ b)).
  rewrite !splitLoop_more_cons. apply IH.
Qed.

Lemma depth_not_zero (d : nat) : Z.eqb (Z.of_nat (S d)) 0 = false.
Proof. apply Z.eqb_neq. lia. Qed.

(** The opening quote of a string is a quote. *)
Definition quoteOK (quote : option ascii) : Prop :=
  match quote with
  | Some q => isQuote q = true
  | None => True
  end.

(** Inside braces or inside a string a character is only appended. *)
Lemma step_escaped (found : list string) (text : string) (depth : Z)
    (quote : option ascii) (c : ascii) :
  splitStep false (scanning found text depth quote true) c
  = scanning found (text +++ str1 c) depth quote false.
Proof. reflexivity. Qed.

Lemma step_backslash (found : list string) (text : string) (depth : Z)
    (quote : option ascii) (c : ascii) :
  Ascii.eqb c backslash = true ->
  splitStep false (scanning found text depth quote false) c
  = scanning found (text +++ str1 c) depth quote true.
Proof. intros Hc. unfold splitStep, scanning. cbn. rewrite Hc. reflexivity. Qed.

Lemma step_in_string (found : list string) (text : string) (depth : Z)
    (q c : ascii) :
  Ascii.eqb c backslash = false -> Ascii.eqb c q = false ->
  splitStep false (scanning found text depth (Some q) false) c
  = scanning found (text +++ str1 c) depth (Some q) false.
Proof.
  intros Hb Hq. unfold splitStep, scanning. cbn. rewrite Hb, Hq. reflexivity.
Qed.

Lemma step_string_closes (found : list string) (text : string) (d : nat) (q c : ascii) :
  isQuote q = true -> Ascii.eqb c backslash = false -> Ascii.eqb c q = true ->
  splitStep false (scanning found text (Z.of_nat (S d)) (Some q) false) c
  = scanning found (text +++ str1 c) (Z.of_nat (S d)) None false.
Proof.
  intros Hquote Hb Hq. apply Ascii.eqb_eq in Hq. subst q.
  destruct (quote_is_no_brace c Hquote) as [Hopen Hclose].
  unfold splitStep, scanning.
  cbn [escaped inString stringChar braceCount current objects negb andb].
  rewrite Hb, Ascii.eqb_refl, Hopen, Hclose. cbn [negb andb].
  rewrite depth_not_zero. reflexivity.
Qed.

Lemma step_string_opens (found : list string) (text : string) (depth : Z) (c : ascii) :
  Ascii.eqb c backslash = false -> isQuote c = true ->
  splitStep false (scanning found text depth None false) c
  = scanning found (text +++ str1 c) depth (Some c) false.
Proof.
  intros Hb Hquote. unfold splitStep, scanning.
  cbn [escaped inString stringChar braceCount current objects negb andb].
  rewrite Hb, Hquote. reflexivity.
Qed.

Lemma step_brace_opens (found : list string) (text : string) (d : nat) (c : ascii) :
  Ascii.eqb c backslash = false -> isQuote c = false -> Ascii.eqb c openBrace = true ->
  splitStep false (scanning found text (Z.of_nat d) None false) c
  = scanning found (text +++ str1 c) (Z.of_nat (S d)) None false.
Proof.
  intros Hb Hquote Hopen. unfold splitStep, scanning.
  cbn [escaped inString stringChar braceCount current objects negb andb].
  rewrite Hb, Hquote, Hopen. cbn [negb andb].
  replace (Z.of_nat d + 1)%Z with (Z.of_nat (S d)) by lia.
  rewrite depth_not_zero. reflexivity.
Qed.

Lemma step_brace_closes (found : list string) (text : string) (d : nat) (c : ascii) :
  Ascii.eqb c backslash = false -> isQuote c = false ->
  Ascii.eqb c openBrace = false -> Ascii.eqb c closeBrace = true ->
  splitStep false (scanning found text (Z.of_nat (S (S d))) None false) c
  = scanning found (text +++ str1 c) (Z.of_nat (S d)) None false.
Proof.
  intros Hb Hquote Hopen Hclose. unfold splitStep, scanning.
  cbn [escaped inString stringChar braceCount current objects negb andb].
  rewrite Hb, Hquote, Hopen, Hclose. cbn [negb andb].
  replace (Z.of_nat (S (S d)) - 1)%Z with (Z.of_nat (S d)) by lia.
  rewrite depth_not_zero. reflexivity.
Qed.

Lemma step_inside (found : list string) (text : string) (d : nat) (c : ascii) :
  Ascii.eqb c backslash = false -> isQuote c = false ->
  Ascii.eqb c openBrace = false -> Ascii.eqb c closeBrace = false ->
  splitStep false (scanning found text (Z.of_nat (S d)) None false) c
  = scanning found (text +++ str1 c) (Z.of_nat (S d)) None false.
Proof.
  intros Hb Hquote Hopen Hclose. unfold splitStep, scanning.
  cbn [escaped inString stringChar braceCount current objects negb andb].
  rewrite Hb, Hquote, Hopen, Hclose. cbn [negb andb].
  rewrite depth_not_zero. reflexivity.
Qed.

(** Text that [closes] is some text and a closing brace, and the loop runs
    through that text without cutting, down to one open brace. *)
Lemma closes_run (s : string) :
  forall (d : nat) (quote : option ascii) (esc : bool),
    quoteOK quote ->
    closes (S d) quote esc s = true ->
    exists a,
      s = a +++ str1 closeBrace
      /\ forall found text,
           splitLoop true (scanning found text (Z.of_nat (S d)) quote esc) a
           = scanning found (text +++ a) 1 None false.
Proof.
  induction s as [| c s IH]; intros d quote esc Hquote Hcloses; [discriminate |].
  assert (Hnext : forall d1 q1 e1,
            quoteOK q1 -> closes (S d1) q1 e1 s = true ->
            (forall found text,
               splitStep false (scanning found text (Z.of_nat (S d)) quote esc) c
               = scanning found (text +++ str1 c) (Z.of_nat (S d1)) q1 e1) ->
            exists a,
              String c s = a +++ str1 closeBrace
              /\ forall found text,
                   splitLoop true (scanning found text (Z.of_nat (S d)) quote esc) a
                   = scanning found (text +++ a) 1 None false).
  { intros d1 q1 e1 Hq1 Hc1 Hstep.
    destruct (IH d1 q1 e1 Hq1 Hc1) as [a [Hs Hrun]].
    exists (String c a). split; [rewrite Hs; reflexivity |].
    intros found text. rewrite splitLoop_more_cons, Hstep, Hrun, append_char.
    reflexivity. }
  cbn [closes] in Hcloses.
  destruct esc.
  - apply (Hnext d quote false Hquote Hcloses).
    intros found text. apply step_escaped.
  - destruct (Ascii.eqb c backslash) eqn:Hb.
    + apply (Hnext d quote true Hquote Hcloses).
      intros found text. apply step_backslash. exact Hb.
    + destruct quote as [q |].
      * destruct (Ascii.eqb c q) eqn:Hq.
        -- apply (Hnext d None false I Hcloses).
           intros found text. apply step_string_closes; assumption.
        -- apply (Hnext d (Some q) false Hquote Hcloses).
           intros found text. apply step_in_string; assumption.
      * destruct (isQuote c) eqn:Hisq.
        -- apply (Hnext d (Some c) false Hisq Hcloses).
           intros found text. apply step_string_opens; assumption.
        -- destruct (Ascii.eqb c openBrace) eqn:Hopen.
           ++ apply (Hnext (S d) None false I Hcloses).
              intros found text. apply step_brace_opens; assumption.
           ++ destruct (Ascii.eqb c closeBrace) eqn:Hclose.
              ** destruct d as [| d].
                 --- destruct s; [| discriminate].
                     apply Ascii.eqb_eq in Hclose. subst c.
                     exists EmptyString. split; [reflexivity |].
                     intros found text. cbn [splitLoop]. rewrite append_nil_right.
                     reflexivity.
                 --- apply (Hnext d None false I Hcloses).
                     intros found text. apply step_brace_closes; assumption.
              ** apply (Hnext d None false I Hcloses).
                 intros found text. apply step_inside; assumption.
Qed.

(** An object text is an opening brace, some text and a closing brace;
    from between two objects the loop runs through all but the closing brace
    without cutting. *)
Lemma object_run (o : string) :
  isObjectText o = true ->
  exists a,
    o = String openBrace a +++ str1 closeBrace
    /\ forall found text,
         splitLoop true (scanning found text 0 None false) (String openBrace a)
         = scanning found (text +++ String openBrace a) 1 None false.
Proof.
  destruct o as [| c s]; [discriminate |]. cbn [isObjectText].
  intros Hobj. apply andb_true_iff in Hobj. destruct Hobj as [Hc Hcloses].
  apply Ascii.eqb_eq in Hc. subst c.
  destruct (closes_run s 0 None false I Hcloses) as [a [-> Hrun]].
  exists a. split; [reflexivity |].
  intros found text. rewrite splitLoop_more_cons.
  change (scanning found text 0 None false)
    with (scanning found text (Z.of_nat 0) None false).
  rewrite (step_brace_opens found text 0 openBrace) by reflexivity.
  rewrite Hrun, append_char. reflexivity.
Qed.

(** An object text after white space, trimmed, is the object text. *)
Lemma trim_padded_object (ws a : string) (c : ascii) :
  allChars isSpace ws = true -> isSpace c = false ->
  trim ((ws +++ String openBrace a) +++ str1 c) = String openBrace a +++ str1 c.
Proof.
  intros Hws Hc. unfold trim. rewrite append_associative.
  rewrite trimStart_spaces by exact Hws.
  change (trimStart (String openBrace a +++ str1 c)) with (String openBrace a +++ str1 c).
  apply trimEnd_ends_solid. exact Hc.
Qed.

(** The closing brace of an object: the object is cut off there only when
    the brace is the last character of the text. *)
Lemma step_object_closes (last : bool) (found : list string) (ws a : string) :
  allChars isSpace ws = true ->
  splitStep last (scanning found (ws +++ String openBrace a) 1 None false) closeBrace
  = if last
    then scanning (found ++ [String openBrace a +++ str1 closeBrace])
                  EmptyString 0 None false
    else scanning found ((ws +++ String openBrace a) +++ str1 closeBrace) 0 None false.
Proof.
  intros Hws. unfold splitStep, scanning.
  cbn [escaped inString stringChar braceCount current objects].
  change (Ascii.eqb closeBrace backslash) with false.
  change (isQuote closeBrace) with false.
  change (Ascii.eqb closeBrace openBrace) with false.
  change (Ascii.eqb closeBrace closeBrace) with true.
  change (Ascii.eqb closeBrace comma) with false.
  cbn [negb andb orb Z.sub Z.eqb Z.add Z.opp Z.pos_sub].
  rewrite (stripTrailingComma_other _ closeBrace) by reflexivity.
  rewrite (trim_padded_object ws a closeBrace Hws) by reflexivity.
  destruct last; reflexivity.
Qed.

(** The comma after an object cuts the object off, trimmed. *)
Lemma step_comma (last : bool) (found : list string) (ws a : string) :
  allChars isSpace ws = true ->
  splitStep last
    (scanning found ((ws +++ String openBrace a) +++ str1 closeBrace) 0 None false) comma
  = scanning (found ++ [String openBrace a +++ str1 closeBrace]) EmptyString 0 None false.
Proof.
  intros Hws. unfold splitStep, scanning.
  cbn [escaped inString stringChar braceCount current objects].
  change (Ascii.eqb comma backslash) with false.
  change (isQuote comma) with false.
  change (Ascii.eqb comma openBrace) with false.
  change (Ascii.eqb comma closeBrace) with false.
  change (Ascii.eqb comma comma) with true.
  cbn [negb andb orb Z.eqb].
  rewrite stripTrailingComma_comma.
  rewrite (trim_padded_object ws a closeBrace Hws) by reflexivity.
  assert (Hsome : truthy (trim (((ws +++ String openBrace a) +++ str1 closeBrace)
                                 +++ str1 comma)) = true).
  { rewrite (append_associative (ws +++ String openBrace a)).
    rewrite (append_associative ws). unfold trim.
    rewrite trimStart_spaces by exact Hws.
    change (trimStart (String openBrace a +++ str1 closeBrace +++ str1 comma))
      with (String openBrace (a +++ str1 closeBrace +++ str1 comma)).
    cbn [trimEnd].
    destruct (trimEnd (a +++ str1 closeBrace +++ str1 comma)); reflexivity. }
  rewrite Hsome. reflexivity.
Qed.

(** White space between two objects is only gathered. *)
Lemma spaces_run (ws : string) :
  forall (found : list string) (text : string),
    allChars isSpace text = true -> allChars isSpace ws = true ->
    splitLoop true (scanning found text 0 None false) ws
    = scanning found (text +++ ws) 0 None false.
Proof.
  induction ws as [| c ws IH]; intros found text Htext Hws.
  - rewrite append_nil_right. reflexivity.
  - cbn [allChars] in Hws. apply andb_true_iff in Hws. destruct Hws as [Hc Hws].
    destruct (space_is_inert c Hc) as [Hb [Hq [Hopen [Hclose Hcomma]]]].
    assert (Hgrown : allChars isSpace (text +++ str1 c) = true).
    { rewrite allChars_append, Htext. cbn. rewrite Hc. reflexivity. }
    rewrite splitLoop_more_cons.
    assert (Hstep : splitStep false (scanning found text 0 None false) c
                    = scanning found (text +++ str1 c) 0 None false).
    { unfold splitStep, scanning.
      cbn [escaped inString stringChar braceCount current objects negb andb].
      rewrite Hb, Hq, Hopen, Hclose. cbn [negb andb Z.eqb].
      rewrite (trim_spaces _ Hgrown). reflexivity. }
    rewrite Hstep, (IH found _ Hgrown Hws), append_char. reflexivity.
Qed.

Lemma join_objects_nonempty (sep : string) (o : string) (rest : list string) :
  isObjectText o = true -> exists c tail, join sep (o :: rest) = String c tail.
Proof.
  intros Hobj. destruct o as [| c s]; [discriminate |].
  destruct rest; cbn [join]; eexists; eexists; reflexivity.
Qed.

(** The objects found in the joined text, from between two objects on. *)
Lemma joined_objects_run (ws : string) (objs : list string) :
  allChars isSpace ws = true ->
  Forall (fun o => isObjectText o = true) objs ->
  objs <> [] ->
  forall (found : list string) (pad : string),
    allChars isSpace pad = true ->
    objects (splitLoop false (scanning found pad 0 None false)
               (join (str1 comma +++ ws) objs))
    = found ++ objs.
Proof.
  intros Hws Hall. induction Hall as [| o rest Hobj Hrest IH]; [contradiction |].
  intros _ found pad Hpad.
  destruct (object_run o Hobj) as [a [-> Hrun]].
  destruct rest as [| o2 rest].
  - (* the last object *)
    cbn [join]. unfold str1 at 1.
    rewrite (splitLoop_before false (String openBrace a) closeBrace EmptyString).
    rewrite Hrun. cbn [splitLoop negb].
    rewrite (step_object_closes true found pad a Hpad). reflexivity.
  - (* an object, a comma, white space, and more objects *)
    inversion Hrest as [| x xs Hobj2 Hrest2]; subst.
    destruct (join_objects_nonempty (str1 comma +++ ws) o2 rest Hobj2)
      as [c [tail Hjoin]].
    change (join (str1 comma +++ ws)
              ((String openBrace a +++ str1 closeBrace) :: o2 :: rest))
      with ((String openBrace a +++ str1 closeBrace)
            +++ (str1 comma +++ ws) +++ join (str1 comma +++ ws) (o2 :: rest)).
    rewrite (append_associative (String openBrace a)).
    change (str1 closeBrace
            +++ (str1 comma +++ ws) +++ join (str1 comma +++ ws) (o2 :: rest))
      with (String closeBrace
              (String comma (ws +++ join (str1 comma +++ ws) (o2 :: rest)))).
    rewrite (splitLoop_before false (String openBrace a) closeBrace).
    rewrite Hrun.
    cbn [splitLoop].
    rewrite (step_object_closes false found pad a Hpad).
    assert (Hmore : exists c1 t1,
              ws +++ join (str1 comma +++ ws) (o2 :: rest) = String c1 t1).
    { rewrite Hjoin. destruct ws; cbn; eexists; eexists; reflexivity. }
    destruct Hmore as [c1 [t1 Hcat]]. rewrite Hcat.
    rewrite (step_comma false found pad a Hpad).
    rewrite <- Hcat, Hjoin.
    rewrite (splitLoop_before false ws c tail).
    rewrite (spaces_run ws _ EmptyString eq_refl Hws).
    rewrite <- Hjoin. cbn [String.append].
    rewrite (IH ltac:(discriminate) _ ws Hws).
    rewrite <- app_assoc. reflexivity.
Qed.

(** X16. When well-formed object texts (closed strings, balanced braces)
    are joined by commas followed by white space, [splitToolObjects] returns
    exactly those texts, in order: commas and braces inside strings and
    commas inside braces never cut. *)
Theorem splitToolObjects_of_joined_objects :
  forall (objs : list string) (ws : string),
    Forall (fun o => isObjectText o = true) objs ->
    allChars isSpace ws = true ->
    splitToolObjects (join (str1 comma +++ ws) objs) = objs.
Proof.
  intros objs ws Hall Hws.
  destruct (splitToolObjects_parts (join (str1 comma +++ ws) objs)) as [Hsame _].
  rewrite Hsame.
  destruct objs as [| o rest]; [reflexivity |].
  apply (joined_objects_run ws (o :: rest) Hws Hall ltac:(discriminate) [] EmptyString).
  reflexivity.
Qed.

Lemma sampleObjects_wellformed : Forall (fun o => isObjectText o = true) sampleObjects.
Proof. repeat constructor. Qed.

(** X16 on two tool objects of the kind the script reads. *)
Lemma splitToolObjects_witness :
  splitToolObjects (join (str1 comma +++ str1 newline +++ "  ") sampleObjects)
  = sampleObjects.
Proof.
  apply (splitToolObjects_of_joined_objects sampleObjects (str1 newline +++ "  ")
           sampleObjects_wellformed).
  reflexivity.
Defined.

End SplitterProofs.
